(** * Retirement calculator: projection engine

    A shallow embedding of [src/components/RetirementCalculator.tsx]
    (the catalogue of investment vehicles, [generateNormalRandom],
    [calculateSequenceRisk], [runMonteCarloSimulation] and
    [calculateRetirement]) together with the properties of the
    specification that concern them.

    Numbers.  A JavaScript [number] is idealised as an exact rational
    ([Q]): rounding, NaN and the infinities are outside the model.  The
    integer quantities of the program (ages, the calendar year) are [Z];
    loop counters are [nat].  Every division of the program is by a
    literal, by a loop bound that is at least 1 inside the loop, by a
    validated positive input, or is guarded by a test, with one
    exception: the division by the safe withdrawal rate (in [Q] a
    division by zero is 0); no result below depends on its value.

    Randomness.  [Math.random] is replaced by a stream [z : nat -> Q] of
    standard normal variates and a counter of how many were consumed.

    Time.  [new Date().getFullYear()] is the parameter [thisYear]. *)

From Stdlib Require Import QArith Qabs Qminmax Qround Qpower Lqa.
From Stdlib Require Import ZArith List Lia Bool String.
From Stdlib Require Import Sorting.Mergesort Sorting.Sorted Permutation.
Import ListNotations.

Local Open Scope Q_scope.

(** ** Numbers and the [Math] functions used by the program *)

Definition number := Q.

Definition ofNat (n : nat) : number := inject_Z (Z.of_nat n).

(** [a < b] on numbers, as a boolean. *)
Definition Qltb (a b : number) : bool := negb (Qle_bool b a).

Module Math.
  (** [Math.pow] is only ever called with an integer exponent. *)
Definition pow (b : number) (e : Z) : number := Qpower b e.
Definition max (a b : number) : number := Qmax a b.
Definition abs (a : number) : number := Qabs a.
Definition floor (a : number) : Z := Qfloor a.
End Math.

(** A [for (let i = lo; i < lo + count; i++)] loop over a state. *)
Definition forLoop {S : Type} (lo count : nat) (body : S -> nat -> S) (init : S) : S :=
  fold_left body (seq lo count) init.

(** Array indexing [a[i]] on an array of numbers.  Every access of the
    program is in range (see the length lemmas); the default stands for
    [undefined]. *)
Definition idx (a : list number) (i : nat) : number := nth i a 0.

(** ** The data model *)

Module InvestmentVehicle.
Record t := mk {
    name : string;
    returnRate : number;
    riskLevel : string;
    volatility : option number   (* [volatility?: number] *)
  }.
End InvestmentVehicle.

Definition investmentVehicles : list InvestmentVehicle.t :=
  [ InvestmentVehicle.mk "Very Low Risk" 4 "Very Low Risk" (Some 0);
    InvestmentVehicle.mk "Low Risk" 7.5 "Low Risk" (Some 0);
    InvestmentVehicle.mk "Moderate Risk" 12 "Moderate Risk" (Some 15);
    InvestmentVehicle.mk "High Risk" 18 "High Risk" (Some 25);
    InvestmentVehicle.mk "Very High Risk" 22 "Very High Risk" (Some 35) ].

(** ** [calculateSequenceRisk]: the return sequences *)

Definition generateSequence (type : string) (years : nat) (baseReturn vol : number)
  : list number :=
  if String.eqb type "bestCase" then
    forLoop 0 years (fun returns i =>
      let progress := ofNat i / ofNat years in
      returns ++ [(baseReturn + vol * (progress - 0.5) * 2) / 100]) []
  else if String.eqb type "worstCase" then
    forLoop 0 years (fun returns i =>
      let progress := ofNat i / ofNat years in
      returns ++ [(baseReturn - vol * (progress - 0.5) * 2) / 100]) []
  else if String.eqb type "earlyBear" then
    forLoop 0 years (fun returns i =>
      if Qltb (ofNat i) (ofNat years * 0.3)
      then returns ++ [(baseReturn - vol * 0.8) / 100]
      else returns ++ [(baseReturn + vol * 0.4) / 100]) []
  else
    forLoop 0 years (fun returns i => returns ++ [baseReturn / 100]) [].

(** The return of year [i] in each of the three shaped sequences. *)
Definition bestCaseReturn (years : nat) (baseReturn vol : number) (i : nat) : number :=
  (baseReturn + vol * (ofNat i / ofNat years - 0.5) * 2) / 100.
Definition worstCaseReturn (years : nat) (baseReturn vol : number) (i : nat) : number :=
  (baseReturn - vol * (ofNat i / ofNat years - 0.5) * 2) / 100.
Definition earlyBearReturn (years : nat) (baseReturn vol : number) (i : nat) : number :=
  if Qltb (ofNat i) (ofNat years * 0.3)
  then (baseReturn - vol * 0.8) / 100
  else (baseReturn + vol * 0.4) / 100.

(** Number of years of the bear regime: the indices below [years * 0.3]. *)
Definition bearYears (years : nat) : nat := Z.to_nat (Qceiling (ofNat years * 0.3)).

(** Sum and arithmetic mean of a sequence of returns. *)
Definition sum (l : list number) : number := fold_right Qplus 0 l.
Definition mean (l : list number) : number := sum l / ofNat (List.length l).

Module FullCycle.
  (** The object returned by [simulateFullCycle]. *)
Record t := mk {
    finalValue : number;
    survivalYears : nat;
    values : list number
  }.
End FullCycle.

Module SequenceScenario.
Record t := mk {
    name : string;
    description : string;
    preRetirement : list number;
    postRetirement : list number;
    finalValue : number;
    survivalYears : nat;
    color : string;
    preRetirementReturnRate : number;
    postRetirementReturnRate : number
  }.
End SequenceScenario.

Module SequenceProjection.
Record t := mk {
    year : Z;
    age : Z;
    isRetirementYear : bool;
    isCriticalZone : bool;
    bestCase : number;
    worstCase : number;
    earlyBear : number;
    average : number
  }.
End SequenceProjection.

(** ** [calculateSequenceRisk]: the full-cycle simulation *)

Section CalculateSequenceRisk.
Variable thisYear : Z.
Variable yearsUntilRetirement : nat.
Variables annualInvestment preRetirementReturn volatility : number.
Variable retirementDuration : nat.
Variables annualRetirementIncome inflationRate salaryGrowthRate : number.
Variable postRetirementReturn : number.
Variable currentAge : Z.

  (** State of the accumulation loop: [allValues] and [portfolioValue]. *)
Definition accumulationStep (preReturns : list number)
      (st : list number * number) (year : nat) : list number * number :=
    let '(allValues, portfolioValue) := st in
    let yearContribution :=
      annualInvestment * Math.pow (1 + salaryGrowthRate) (Z.of_nat year) in
    let portfolioValue := (portfolioValue + yearContribution) * (1 + idx preReturns year) in
    (allValues ++ [portfolioValue], portfolioValue).

  (** State of the retirement loop: [allValues], [portfolioValue] and
      [survivalYears]. *)
Definition retirementStep (postReturns : list number)
      (st : list number * number * nat) (year : nat) : list number * number * nat :=
    let '(allValues, portfolioValue, survivalYears) := st in
    let withdrawal :=
      annualRetirementIncome * Math.pow (1 + inflationRate) (Z.of_nat year) in
    let portfolioValue := (portfolioValue - withdrawal) * (1 + idx postReturns year) in
    let allValues := allValues ++ [Math.max 0 portfolioValue] in
    if Qle_bool portfolioValue 0 && Nat.eqb survivalYears retirementDuration
    then (allValues, portfolioValue, year)
    else (allValues, portfolioValue, survivalYears).

Definition simulateFullCycle (preReturns postReturns : list number) : FullCycle.t :=
    let '(allValues, portfolioValue) :=
      forLoop 0 yearsUntilRetirement (accumulationStep preReturns) ([0], 0) in
    let '(allValues, portfolioValue, survivalYears) :=
      forLoop 0 retirementDuration (retirementStep postReturns)
        (allValues, portfolioValue, retirementDuration) in
    FullCycle.mk (Math.max 0 portfolioValue) survivalYears allValues.

(** The state of the retirement loop of [simulateFullCycle] after its
    first [n] turns, and the value of [portfolioValue] (before the floor
    at 0) computed in turn [year]. *)
Definition retirementState (preReturns postReturns : list number) (n : nat)
  : list number * number * nat :=
  let '(allValues, portfolioValue) :=
    forLoop 0 yearsUntilRetirement (accumulationStep preReturns) ([0], 0) in
  forLoop 0 n (retirementStep postReturns)
    (allValues, portfolioValue, retirementDuration).

Definition drawdownValue (preReturns postReturns : list number) (year : nat) : number :=
  snd (fst (retirementState preReturns postReturns (S year))).

Definition preRetBestCase :=
    generateSequence "bestCase" yearsUntilRetirement preRetirementReturn volatility.
Definition preRetWorstCase :=
    generateSequence "worstCase" yearsUntilRetirement preRetirementReturn volatility.
Definition preRetEarlyBear :=
    generateSequence "earlyBear" yearsUntilRetirement preRetirementReturn volatility.
Definition preRetAverage :=
    generateSequence "average" yearsUntilRetirement preRetirementReturn volatility.

Definition postRetSteady :=
    generateSequence "average" retirementDuration postRetirementReturn 0.

Definition bestCaseResult := simulateFullCycle preRetBestCase postRetSteady.
Definition worstCaseResult := simulateFullCycle preRetWorstCase postRetSteady.
Definition earlyBearResult := simulateFullCycle preRetEarlyBear postRetSteady.
Definition averageResult := simulateFullCycle preRetAverage postRetSteady.

Definition scenarios : list SequenceScenario.t :=
    [ SequenceScenario.mk "Bull Market Into Retirement"
        "Strong returns leading up to retirement, steady conservative returns after"
        preRetBestCase postRetSteady
        (FullCycle.finalValue bestCaseResult) (FullCycle.survivalYears bestCaseResult)
        "#22c55e" preRetirementReturn postRetirementReturn;
      SequenceScenario.mk "Bear Market Into Retirement"
        "Poor returns before retirement, steady conservative returns after"
        preRetWorstCase postRetSteady
        (FullCycle.finalValue worstCaseResult) (FullCycle.survivalYears worstCaseResult)
        "#ef4444" preRetirementReturn postRetirementReturn;
      SequenceScenario.mk "Early Bear, Late Bull"
        "Poor returns early in career, strong returns later"
        preRetEarlyBear postRetSteady
        (FullCycle.finalValue earlyBearResult) (FullCycle.survivalYears earlyBearResult)
        "#f59e0b" preRetirementReturn postRetirementReturn;
      SequenceScenario.mk "Steady Average Returns"
        "Consistent average returns throughout"
        preRetAverage postRetSteady
        (FullCycle.finalValue averageResult) (FullCycle.survivalYears averageResult)
        "#3b82f6" preRetirementReturn postRetirementReturn ].

  (** [values[i] || 0]: a missing or zero entry reads as 0. *)
Definition projections : list SequenceProjection.t :=
    let totalYears := (yearsUntilRetirement + retirementDuration + 1)%nat in
    forLoop 0 totalYears (fun projections i =>
      let year := (thisYear + Z.of_nat i)%Z in
      let age := (currentAge + Z.of_nat i)%Z in
      let isRetirementYear := Nat.eqb i yearsUntilRetirement in
      let isCriticalZone :=
        (Z.of_nat yearsUntilRetirement - 5 <=? Z.of_nat i)%Z
        && Nat.ltb i yearsUntilRetirement in
      projections ++
      [ SequenceProjection.mk year age isRetirementYear isCriticalZone
          (idx (FullCycle.values bestCaseResult) i)
          (idx (FullCycle.values worstCaseResult) i)
          (idx (FullCycle.values earlyBearResult) i)
          (idx (FullCycle.values averageResult) i) ]) [].

Definition calculateSequenceRisk
    : list SequenceScenario.t * list SequenceProjection.t :=
    (scenarios, projections).

End CalculateSequenceRisk.

(** ** [generateNormalRandom] and [runMonteCarloSimulation] *)

Module MonteCarloProjection.
Record t := mk {
  year : Z;
  age : Z;
  p10 : number;
  p25 : number;
  p50 : number;
  p75 : number;
  p90 : number;
  target : number;
  deterministic : number
}.
End MonteCarloProjection.

(** The Box-Muller variate [z0] is the next element of the stream [z];
    the function returns [mean + z0 * stdDev] and the advanced counter. *)
Definition generateNormalRandom (z : nat -> number) (mean stdDev : number) (k : nat)
  : number * nat :=
  let z0 := z k in
  (mean + z0 * stdDev, S k).

(** [Array.prototype.sort] with the comparator [(a, b) => a - b], as a
    merge sort: [a] stays before [b] when the comparator is not positive. *)
Module NumberOrder <: Orders.TotalLeBool.
Definition t := number.
Definition compareFn (a b : number) : number := a - b.
Definition leb (a b : t) : bool := Qle_bool (compareFn a b) 0.
Lemma leb_total : forall x y : t, leb x y = true \/ leb y x = true.
Proof.
  intros x y. unfold leb, compareFn.
  destruct (Qlt_le_dec y x) as [H | H].
  - right. apply Qle_bool_iff. lra.
  - left. apply Qle_bool_iff. lra.
Qed.
End NumberOrder.

Module NumberSort := Sort NumberOrder.

Section RunMonteCarloSimulation.
Variable z : nat -> number.
Variable thisYear : Z.
Variable yearsUntilRetirement : nat.
Variables annualInvestment expectedReturn volatility targetCorpus : number.
Variable currentAge : Z.
Variable salaryGrowthRate : number.

Definition numSimulations : nat := 1000.

(** Inner loop of a path: [yearlyValues], [portfolioValue] and the
    counter of the random stream. *)
Definition pathStep (st : list number * number * nat) (year : nat)
  : list number * number * nat :=
  let '(yearlyValues, portfolioValue, k) := st in
  let '(annualReturn, k) :=
    generateNormalRandom z (expectedReturn / 100) (volatility / 100) k in
  let yearContribution :=
    annualInvestment * Math.pow (1 + salaryGrowthRate) (Z.of_nat year - 1) in
  let portfolioValue := (portfolioValue + yearContribution) * (1 + annualReturn) in
  (yearlyValues ++ [portfolioValue], portfolioValue, k).

Definition simulationStep (st : list (list number) * nat) (sim : nat)
  : list (list number) * nat :=
  let '(simulations, k) := st in
  let '(yearlyValues, _, k) :=
    forLoop 1 yearsUntilRetirement pathStep ([0], 0, k) in
  (simulations ++ [yearlyValues], k).

Definition simulations : list (list number) :=
  fst (forLoop 0 numSimulations simulationStep ([], 0%nat)).

Definition yearValues (year : nat) : list number :=
  NumberSort.sort (map (fun sim => idx sim year) simulations).

Definition deterministicValue (year : nat) : number :=
  if Nat.ltb 0 year then
    forLoop 1 year (fun deterministicValue i =>
      let yearContribution :=
        annualInvestment * Math.pow (1 + salaryGrowthRate) (Z.of_nat i - 1) in
      (deterministicValue + yearContribution) * (1 + expectedReturn / 100)) 0
  else 0.

Definition percentileIndex (p : number) : nat :=
  Z.to_nat (Math.floor (ofNat numSimulations * p)).

Definition monteCarloRow (year : nat) : MonteCarloProjection.t :=
  MonteCarloProjection.mk
    (thisYear + Z.of_nat year)%Z
    (currentAge + Z.of_nat year)%Z
    (idx (yearValues year) (percentileIndex 0.1))
    (idx (yearValues year) (percentileIndex 0.25))
    (idx (yearValues year) (percentileIndex 0.5))
    (idx (yearValues year) (percentileIndex 0.75))
    (idx (yearValues year) (percentileIndex 0.9))
    targetCorpus
    (deterministicValue year).

Definition runMonteCarloSimulation : list MonteCarloProjection.t :=
  forLoop 0 (S yearsUntilRetirement)
    (fun projections year => projections ++ [monteCarloRow year]) [].

End RunMonteCarloSimulation.

(** ** [calculateRetirement] *)

Module YearlyProjection.
Record t := mk {
  year : Z;
  age : Z;
  annualContribution : number;
  cumulativeContribution : number;
  investmentReturns : number;
  totalValue : number
}.
End YearlyProjection.

Module PostRetirementProjection.
Record t := mk {
  year : Z;
  age : Z;
  withdrawal : number;
  portfolioValue : number
}.
End PostRetirementProjection.

Module CalculationResults.
Record t := mk {
  yearsUntilRetirement : Z;
  targetRetirementCorpus : number;
  monthlyInvestmentNeeded : number;
  annualInvestmentNeeded : number;
  totalContributions : number;
  totalReturns : number;
  yearlyProjections : list YearlyProjection.t;
  postRetirementProjections : list PostRetirementProjection.t;
  replacementRatio : number;
  annualRetirementIncome : number;
  retirementDuration : nat;
  safeWithdrawalRate : number;
  isUnrealistic : bool;
  incomePercentageNeeded : number;
  monteCarloProjections : option (list MonteCarloProjection.t);
  postRetirementVehicle : InvestmentVehicle.t;
  sequenceScenarios : option (list SequenceScenario.t);
  sequenceProjections : option (list SequenceProjection.t)
}.
End CalculationResults.

(** The state of the form after [parseInt] and [parseFloat]: [None] is
    NaN.  The two vehicle selections are indices into the catalogue. *)
Module FormState.
Record t := mk {
  currentAge : option Z;
  retirementAge : option Z;
  currentIncome : option number;
  selectedVehicle : nat;
  retirementIncomePercent : option number;
  safeWithdrawalRate : option number;
  salaryGrowth : option number;
  useLowestRiskPostRetirement : bool;
  postRetirementVehicle : nat
}.
End FormState.

(** What one call of [calculateRetirement] does: it rejects the input
    with an [alert], throws a [TypeError] on an undefined vehicle or row,
    or stores a result with [setResults]. *)
Inductive outcome : Type :=
| Alert (msg : string)
| TypeError
| SetResults (r : CalculationResults.t).

(** The body of [calculateRetirement] once the inputs are parsed and
    validated and the two vehicles are looked up. *)
Section Plan.
Variable z : nat -> number.
Variable thisYear : Z.
Variables age retAge : Z.
Variable income : number.
Variable vehicle : InvestmentVehicle.t.
Variables replacementRatio withdrawalRate annualSalaryGrowth : number.
Variable postRetVehicle : InvestmentVehicle.t.

Definition retirementDuration : nat := 40.
Definition inflationRate : number := 0.03.

Definition yearsUntilRetirement : Z := (retAge - age)%Z.

(** Number of turns of a loop [for (i = 1; i <= yearsUntilRetirement; i++)]. *)
Definition years : nat := Z.to_nat yearsUntilRetirement.

Definition futureIncome : number :=
  income * Math.pow (1 + annualSalaryGrowth) yearsUntilRetirement.
Definition annualRetirementIncome : number := futureIncome * replacementRatio.

Definition futureRetirementIncome : number :=
  annualRetirementIncome * Math.pow (1 + inflationRate) yearsUntilRetirement.

Definition targetRetirementCorpus : number := futureRetirementIncome / withdrawalRate.

Definition realReturnInRetirement : number :=
  (InvestmentVehicle.returnRate vehicle / 100) - inflationRate.
Definition pvFactor : number :=
  if Qltb 0 realReturnInRetirement
  then (1 - Math.pow (1 + realReturnInRetirement) (- Z.of_nat retirementDuration))
       / realReturnInRetirement
  else ofNat retirementDuration.
Definition targetCorpusAnnuity : number := futureRetirementIncome * pvFactor.

Definition finalTargetCorpus : number :=
  Math.max targetRetirementCorpus targetCorpusAnnuity.

(** *** The contribution solver *)

Definition maxIterations : nat := 100.

(** The inner [for] loop of the solver: [testTotalValue] and
    [testCumulativeContribution] for a candidate contribution. *)
Definition testAccumulation (testAnnualInvestment : number) : number * number :=
  forLoop 1 years (fun '(testTotalValue, testCumulativeContribution) i =>
    let yearContribution :=
      testAnnualInvestment * Math.pow (1 + annualSalaryGrowth) (Z.of_nat i - 1) in
    let testCumulativeContribution := testCumulativeContribution + yearContribution in
    let testTotalValue :=
      (testTotalValue + yearContribution)
      * (1 + InvestmentVehicle.returnRate vehicle / 100) in
    (testTotalValue, testCumulativeContribution)) (0, 0).

(** The [while (iterations < maxIterations)] loop, by recursion on the
    number [fuel] of turns that remain, [maxIterations - iterations]. *)
Fixpoint solverLoop (fuel : nat) (testAnnualInvestment : number) (iterations : nat)
  : number * nat :=
  match fuel with
  | O => (testAnnualInvestment, iterations)
  | S fuel =>
      let testTotalValue := fst (testAccumulation testAnnualInvestment) in
      let difference := finalTargetCorpus - testTotalValue in
      if Qltb (Math.abs difference) 1000
      then (testAnnualInvestment, iterations)
      else solverLoop fuel
             (testAnnualInvestment + difference / inject_Z yearsUntilRetirement / 10)
             (S iterations)
  end.

Definition solver : number * nat :=
  solverLoop maxIterations (finalTargetCorpus / inject_Z yearsUntilRetirement / 1.5) 0.

Definition annualInvestment : number := fst solver.
Definition iterations : nat := snd solver.
Definition monthlyInvestment : number := annualInvestment / 12.

(** *** The accumulation projection *)

(** State of the loop: the rows pushed so far, [cumulativeContribution]
    and [totalValue]. *)
Definition yearlyStep (st : list YearlyProjection.t * number * number) (i : nat)
  : list YearlyProjection.t * number * number :=
  let '(rows, cumulativeContribution, totalValue) := st in
  let currentYear := (thisYear + Z.of_nat i)%Z in
  let currentUserAge := (age + Z.of_nat i)%Z in
  let '(cumulativeContribution, totalValue) :=
    if Nat.ltb 0 i then
      let yearContribution :=
        annualInvestment * Math.pow (1 + annualSalaryGrowth) (Z.of_nat i - 1) in
      (cumulativeContribution + yearContribution,
       (totalValue + yearContribution) * (1 + InvestmentVehicle.returnRate vehicle / 100))
    else (cumulativeContribution, totalValue) in
  let investmentReturns := totalValue - cumulativeContribution in
  (rows ++
   [ YearlyProjection.mk currentYear currentUserAge
       (if Nat.eqb i 0 then 0
        else annualInvestment * Math.pow (1 + annualSalaryGrowth) (Z.of_nat i - 1))
       cumulativeContribution investmentReturns totalValue ],
   cumulativeContribution, totalValue).

(** [for (let i = 0; i <= yearsUntilRetirement; i++)] *)
Definition yearlyProjections : list YearlyProjection.t :=
  fst (fst (forLoop 0 (Z.to_nat (yearsUntilRetirement + 1)) yearlyStep ([], 0, 0))).

Definition incomePercentageNeeded : number := (annualInvestment / income) * 100.
Definition isUnrealistic : bool := Qltb 75 incomePercentageNeeded.

(** [yearlyProjections[yearlyProjections.length - 1]]; [None] is [undefined]. *)
Definition lastYearlyProjection : option YearlyProjection.t :=
  nth_error yearlyProjections (List.length yearlyProjections - 1).

(** *** The drawdown projection *)

(** State of the loop: the rows pushed so far and [portfolioValue]. *)
Definition postRetirementStep (st : list PostRetirementProjection.t * number) (i : nat)
  : list PostRetirementProjection.t * number :=
  let '(rows, portfolioValue) := st in
  let currentYear := (thisYear + yearsUntilRetirement + Z.of_nat i)%Z in
  let currentUserAge := (retAge + Z.of_nat i)%Z in
  let withdrawal :=
    if Nat.eqb i 0 then 0
    else futureRetirementIncome * Math.pow (1 + inflationRate) (Z.of_nat i - 1) in
  let portfolioValue :=
    if Nat.ltb 0 i
    then (portfolioValue - withdrawal)
         * (1 + InvestmentVehicle.returnRate postRetVehicle / 100)
    else portfolioValue in
  (rows ++
   [ PostRetirementProjection.mk currentYear currentUserAge withdrawal
       (Math.max 0 portfolioValue) ],
   portfolioValue).

(** [for (let i = 0; i <= retirementDuration; i++)] *)
Definition postRetirementProjections : list PostRetirementProjection.t :=
  fst (forLoop 0 (S retirementDuration) postRetirementStep ([], finalTargetCorpus)).

(** The value of [portfolioValue] (before the floor at 0) once the turn of
    year [i] is done, and the withdrawal of year [i]. *)
Definition drawdownBalance (i : nat) : number :=
  snd (forLoop 0 (S i) postRetirementStep ([], finalTargetCorpus)).

Definition withdrawalAt (i : nat) : number :=
  if Nat.eqb i 0 then 0
  else futureRetirementIncome * Math.pow (1 + inflationRate) (Z.of_nat i - 1).

(** *** The volatility gate *)

(** [vehicle.volatility && vehicle.volatility > 0]: an absent or zero
    volatility is falsy; the gate yields the volatility it lets through. *)
Definition volatilityGate : option number :=
  match InvestmentVehicle.volatility vehicle with
  | Some volatility =>
      if negb (Qeq_bool volatility 0) && Qltb 0 volatility then Some volatility else None
  | None => None
  end.

Definition monteCarloProjections : option (list MonteCarloProjection.t) :=
  match volatilityGate with
  | Some volatility =>
      Some (runMonteCarloSimulation z thisYear years annualInvestment
              (InvestmentVehicle.returnRate vehicle) volatility finalTargetCorpus
              age annualSalaryGrowth)
  | None => None
  end.

Definition sequenceResults
  : option (list SequenceScenario.t * list SequenceProjection.t) :=
  match volatilityGate with
  | Some volatility =>
      Some (calculateSequenceRisk thisYear years annualInvestment
              (InvestmentVehicle.returnRate vehicle) volatility retirementDuration
              futureRetirementIncome inflationRate annualSalaryGrowth
              (InvestmentVehicle.returnRate postRetVehicle) age)
  | None => None
  end.

Definition sequenceScenarios : option (list SequenceScenario.t) :=
  option_map fst sequenceResults.
Definition sequenceProjections : option (list SequenceProjection.t) :=
  option_map snd sequenceResults.

(** The argument of [setResults], given the last accumulation row. *)
Definition results (lastRow : YearlyProjection.t) : CalculationResults.t :=
  let totalContributions := YearlyProjection.cumulativeContribution lastRow in
  let totalReturns := YearlyProjection.totalValue lastRow - totalContributions in
  CalculationResults.mk
    yearsUntilRetirement
    finalTargetCorpus
    monthlyInvestment
    annualInvestment
    totalContributions
    totalReturns
    yearlyProjections
    postRetirementProjections
    replacementRatio
    futureRetirementIncome
    retirementDuration
    withdrawalRate
    isUnrealistic
    incomePercentageNeeded
    monteCarloProjections
    postRetVehicle
    sequenceScenarios
    sequenceProjections.

End Plan.

(** The first test, [isNaN(age) || isNaN(retAge) || ...], is the match on
    the parsed fields. *)
Definition calculateRetirement (z : nat -> number) (thisYear : Z) (s : FormState.t)
  : outcome :=
  let replacementRatio :=
    option_map (fun x => x / 100) (FormState.retirementIncomePercent s) in
  let withdrawalRate :=
    option_map (fun x => x / 100) (FormState.safeWithdrawalRate s) in
  let annualSalaryGrowth :=
    option_map (fun x => x / 100) (FormState.salaryGrowth s) in
  match FormState.currentAge s, FormState.retirementAge s, FormState.currentIncome s,
        replacementRatio, withdrawalRate, annualSalaryGrowth with
  | Some age, Some retAge, Some income,
    Some replacementRatio, Some withdrawalRate, Some annualSalaryGrowth =>
      if (retAge <=? age)%Z then
        Alert "Retirement age must be greater than current age"
      else if Qle_bool income 0 then
        Alert "Current income must be greater than zero"
      else
        match nth_error investmentVehicles (FormState.selectedVehicle s) with
        | None => TypeError
        | Some vehicle =>
            let postRetVehicle :=
              if FormState.useLowestRiskPostRetirement s
              then nth_error investmentVehicles 0
              else nth_error investmentVehicles (FormState.postRetirementVehicle s) in
            match postRetVehicle with
            | None => TypeError
            | Some postRetVehicle =>
                match lastYearlyProjection thisYear age retAge income vehicle
                        replacementRatio withdrawalRate annualSalaryGrowth with
                | None => TypeError
                | Some lastRow =>
                    SetResults
                      (results z thisYear age retAge income vehicle replacementRatio
                         withdrawalRate annualSalaryGrowth postRetVehicle lastRow)
                end
            end
        end
  | _, _, _, _, _, _ =>
      Alert "Please ensure all fields are filled with valid numbers"
  end.

(** ** The example of the specification *)

(** Age 24, retirement at 40, income 52000, the Moderate Risk vehicle, 75%
    replacement, 4% safe withdrawal rate, 2% salary growth, and the lowest
    risk vehicle after retirement. *)
Definition exampleForm : FormState.t :=
  FormState.mk (Some 24%Z) (Some 40%Z) (Some 52000) 2 (Some 75) (Some 4) (Some 2) true 0.

Definition veryLowRisk : InvestmentVehicle.t :=
  InvestmentVehicle.mk "Very Low Risk" 4 "Very Low Risk" (Some 0).
Definition moderateRisk : InvestmentVehicle.t :=
  InvestmentVehicle.mk "Moderate Risk" 12 "Moderate Risk" (Some 15).
Definition veryHighRisk : InvestmentVehicle.t :=
  InvestmentVehicle.mk "Very High Risk" 22 "Very High Risk" (Some 35).

(** A stream of variates for the examples: every draw is the mean. *)
Definition noNoise : nat -> number := fun _ => 0.

(** ** Valid inputs *)

(** The inputs that pass the validation of [calculateRetirement] and
    select vehicles of the catalogue. *)
Definition validForm (s : FormState.t) : Prop :=
  exists age retAge income percent swr growth,
    FormState.currentAge s = Some age /\
    FormState.retirementAge s = Some retAge /\
    FormState.currentIncome s = Some income /\
    FormState.retirementIncomePercent s = Some percent /\
    FormState.safeWithdrawalRate s = Some swr /\
    FormState.salaryGrowth s = Some growth /\
    (age < retAge)%Z /\
    0 < income /\
    (FormState.selectedVehicle s < List.length investmentVehicles)%nat /\
    (FormState.useLowestRiskPostRetirement s = true
     \/ (FormState.postRetirementVehicle s < List.length investmentVehicles)%nat).

(** ** The accumulation formula of the specification *)

(** The contribution of year [i >= 1]:
    [annualInvestment * (1 + salaryGrowthRate)^(i-1)]. *)
Definition contribution (annualInvestment salaryGrowthRate : number) (i : nat) : number :=
  annualInvestment * Math.pow (1 + salaryGrowthRate) (Z.of_nat i - 1).

(** The specification's compounding rule
    [value' = (value + contribution_i) * (1 + returnRate)] applied for the
    years [1 .. n], from the value 0. *)
Fixpoint accumulation (annualInvestment salaryGrowthRate returnRate : number) (n : nat)
  : number :=
  match n with
  | O => 0
  | S n' =>
      (accumulation annualInvestment salaryGrowthRate returnRate n'
       + contribution annualInvestment salaryGrowthRate (S n'))
      * (1 + returnRate)
  end.

(** The chosen vehicle has a volatility and it is strictly positive. *)
Definition volatilityPositive (vehicle : InvestmentVehicle.t) : Prop :=
  exists volatility,
    InvestmentVehicle.volatility vehicle = Some volatility /\ 0 < volatility.

(** ** [RetirementResults]: the tax breakdown *)

(** [calculateUKTax]: income tax with the tapered personal allowance, plus
    the employee's National Insurance. *)
Definition calculateUKTax (grossIncome : number) : number :=
  let personalAllowance := 12570 in
  let basicRateThreshold := 50270 in
  let higherRateThreshold := 125140 in
  let effectivePersonalAllowance :=
    if Qltb 100000 grossIncome then
      let reduction := (grossIncome - 100000) / 2 in
      Math.max 0 (personalAllowance - reduction)
    else personalAllowance in
  let taxableIncome := Math.max 0 (grossIncome - effectivePersonalAllowance) in
  let incomeTax :=
    if Qle_bool taxableIncome (basicRateThreshold - personalAllowance) then
      taxableIncome * 0.20
    else if Qle_bool taxableIncome (higherRateThreshold - personalAllowance) then
      (basicRateThreshold - personalAllowance) * 0.20
      + (taxableIncome - (basicRateThreshold - personalAllowance)) * 0.40
    else
      (basicRateThreshold - personalAllowance) * 0.20
      + (higherRateThreshold - basicRateThreshold) * 0.40
      + (taxableIncome - (higherRateThreshold - personalAllowance)) * 0.45 in
  let niLowerThreshold := 12570 in
  let niUpperThreshold := 50270 in
  let nationalInsurance :=
    if Qltb niLowerThreshold grossIncome then
      if Qle_bool grossIncome niUpperThreshold then
        (grossIncome - niLowerThreshold) * 0.12
      else
        (niUpperThreshold - niLowerThreshold) * 0.12
        + (grossIncome - niUpperThreshold) * 0.02
    else 0 in
  incomeTax + nationalInsurance.


(** The three parts of [calculateUKTax]: the taxable income, the income
    tax on a taxable income, and the National Insurance on a gross income. *)
Definition taxableIncomeOf (grossIncome : number) : number :=
  Math.max 0
    (grossIncome
     - (if Qltb 100000 grossIncome
        then Math.max 0 (12570 - (grossIncome - 100000) / 2)
        else 12570)).

Definition incomeTaxOn (taxableIncome : number) : number :=
  if Qle_bool taxableIncome (50270 - 12570) then taxableIncome * 0.20
  else if Qle_bool taxableIncome (125140 - 12570) then
    (50270 - 12570) * 0.20 + (taxableIncome - (50270 - 12570)) * 0.40
  else
    (50270 - 12570) * 0.20 + (125140 - 50270) * 0.40
    + (taxableIncome - (125140 - 12570)) * 0.45.

Definition nationalInsuranceOn (grossIncome : number) : number :=
  if Qltb 12570 grossIncome then
    if Qle_bool grossIncome 50270 then (grossIncome - 12570) * 0.12
    else (50270 - 12570) * 0.12 + (grossIncome - 50270) * 0.02
  else 0.

(** ** The outcomes of [calculateRetirement] *)

(** The six numeric fields of the form, when none of them is NaN: current
    age, retirement age, income, replacement percentage, withdrawal rate
    percentage and salary growth percentage. *)
Definition parsedFields (s : FormState.t)
  : option (Z * Z * number * number * number * number) :=
  match FormState.currentAge s, FormState.retirementAge s, FormState.currentIncome s,
        FormState.retirementIncomePercent s, FormState.safeWithdrawalRate s,
        FormState.salaryGrowth s with
  | Some age, Some retAge, Some income, Some percent, Some swr, Some growth =>
      Some (age, retAge, income, percent, swr, growth)
  | _, _, _, _, _, _ => None
  end.

(** Both vehicle selections are entries of the catalogue. *)
Definition vehiclesSelected (s : FormState.t) : Prop :=
  (FormState.selectedVehicle s < List.length investmentVehicles)%nat /\
  (FormState.useLowestRiskPostRetirement s = true
   \/ (FormState.postRetirementVehicle s < List.length investmentVehicles)%nat).

(** ** The dynamics of the contribution solver *)

(** The total that a contribution of 1 accumulates to, the difference
    between the target corpus and the total of a candidate contribution,
    and the factor by which one turn of the solver changes it. *)
Definition unitAccumulation (age retAge : Z) (vehicle : InvestmentVehicle.t)
    (annualSalaryGrowth : number) : number :=
  fst (testAccumulation age retAge vehicle annualSalaryGrowth 1).

Definition solverDifference (age retAge : Z) (income : number)
    (vehicle : InvestmentVehicle.t)
    (replacementRatio withdrawalRate annualSalaryGrowth testAnnualInvestment : number)
  : number :=
  finalTargetCorpus age retAge income vehicle replacementRatio withdrawalRate
    annualSalaryGrowth
  - fst (testAccumulation age retAge vehicle annualSalaryGrowth testAnnualInvestment).

Definition solverFactor (age retAge : Z) (vehicle : InvestmentVehicle.t)
    (annualSalaryGrowth : number) : number :=
  1 - unitAccumulation age retAge vehicle annualSalaryGrowth
      / inject_Z (yearsUntilRetirement age retAge) / 10.

(** ** [SequenceRiskVisualization]: the chart of the return sequences *)

(** [Array.prototype.findIndex]: the first index whose element passes the
    test, -1 when there is none. *)
Fixpoint findIndexFrom {A : Type} (test : A -> bool) (l : list A) (i : Z) : Z :=
  match l with
  | [] => (-1)%Z
  | x :: l' => if test x then i else findIndexFrom test l' (i + 1)%Z
  end.

Definition findIndex {A : Type} (test : A -> bool) (l : list A) : Z :=
  findIndexFrom test l 0.

Module ReturnSequenceRow.
(** A return is [None] when it is NaN, the product of [undefined] and 100. *)
Record t := mk {
  year : Z;
  age : Z;
  phase : string;
  isCriticalZone : bool;
  bullReturns : option number;
  bearReturns : option number;
  avgReturns : option number
}.
End ReturnSequenceRow.

(** [a[i] * 100] *)
Definition percentAt (a : list number) (i : nat) : option number :=
  option_map (fun x => x * 100) (nth_error a i).

(** [createReturnSequenceData]; [None] is the [TypeError] thrown on reading
    a field of an undefined scenario or projection. *)
Definition createReturnSequenceData
    (scenarios : list SequenceScenario.t) (projections : list SequenceProjection.t)
    (retirementDuration : nat) : option (list ReturnSequenceRow.t) :=
  let retirementYearIndex :=
    findIndex SequenceProjection.isRetirementYear projections in
  let displayYears :=
    (retirementYearIndex + Z.min 10 (Z.of_nat retirementDuration))%Z in
  let bullScenario := nth_error scenarios 0 in
  let bearScenario := nth_error scenarios 1 in
  let avgScenario := nth_error scenarios 3 in
  forLoop 0 (Z.to_nat displayYears) (fun data i =>
    match data, nth_error projections i, bullScenario, bearScenario, avgScenario with
    | Some data, Some proj, Some bullScenario, Some bearScenario, Some avgScenario =>
        let isPreRetirement := (Z.of_nat i <? retirementYearIndex)%Z in
        let '(bullReturn, bearReturn, avgReturn) :=
          if isPreRetirement then
            (percentAt (SequenceScenario.preRetirement bullScenario) i,
             percentAt (SequenceScenario.preRetirement bearScenario) i,
             percentAt (SequenceScenario.preRetirement avgScenario) i)
          else
            let postRetIndex := Z.to_nat (Z.of_nat i - retirementYearIndex) in
            (percentAt (SequenceScenario.postRetirement bullScenario) postRetIndex,
             percentAt (SequenceScenario.postRetirement bearScenario) postRetIndex,
             percentAt (SequenceScenario.postRetirement avgScenario) postRetIndex) in
        Some (data ++
              [ ReturnSequenceRow.mk
                  (SequenceProjection.year proj) (SequenceProjection.age proj)
                  (if isPreRetirement then "Accumulation" else "Retirement")
                  (SequenceProjection.isCriticalZone proj)
                  bullReturn bearReturn avgReturn ])
    | _, _, _, _, _ => None
    end) (Some []).

(** ** Samples of the Monte Carlo reduction *)

(** The values of year [year] over all the simulated paths, before they
    are sorted, and the number of values at most, or at least, [v]. *)
Definition yearSamples (z : nat -> number) (yearsUntilRetirement : nat)
    (annualInvestment expectedReturn volatility salaryGrowthRate : number)
    (year : nat) : list number :=
  map (fun sim => idx sim year)
    (simulations z yearsUntilRetirement annualInvestment expectedReturn volatility
       salaryGrowthRate).


(** ** The contributions paid in *)


(** ** [RetirementResults]: the age milestones *)

(** The loop [for (age = currentAge + 5; age < retirementAge; age += 5)],
    by recursion on a number of turns that it cannot exceed.  A milestone
    is pushed when the projection of its year exists; [isFinite] holds of
    every number of the model. *)
Fixpoint milestoneLoop (fuel : nat) (currentAge retirementAge : Z)
    (yearlyProjections : list YearlyProjection.t) (age : Z)
    (milestones : list (Z * number)) : list (Z * number) :=
  match fuel with
  | O => milestones
  | S fuel =>
      if (age <? retirementAge)%Z then
        let yearsFromNow := (age - currentAge)%Z in
        let projection :=
          if (yearsFromNow <? 0)%Z then None
          else nth_error yearlyProjections (Z.to_nat yearsFromNow) in
        let milestones :=
          match projection with
          | Some projection =>
              milestones ++ [(age, YearlyProjection.totalValue projection)]
          | None => milestones
          end in
        milestoneLoop fuel currentAge retirementAge yearlyProjections (age + 5)%Z
          milestones
      else milestones
  end.

(** The milestones shown for the ages [currentAge] and [retirementAge] of
    the form and a stored result: one every five years, then the target
    corpus at the retirement age. *)
Definition milestones (currentAge retirementAge : Z) (results : CalculationResults.t)
  : list (Z * number) :=
  milestoneLoop (Z.to_nat (retirementAge - currentAge)) currentAge retirementAge
    (CalculationResults.yearlyProjections results) (currentAge + 5)%Z []
  ++ [(retirementAge, CalculationResults.targetRetirementCorpus results)].

(** * Properties *)

(** ** Loops and numbers *)

Lemma forLoop_S {S : Type} (lo n : nat) (body : S -> nat -> S) (init : S) :
  forLoop lo (Datatypes.S n) body init = body (forLoop lo n body init) (lo + n)%nat.
Proof.
  unfold forLoop. rewrite seq_S, fold_left_app. reflexivity.
Qed.

Lemma forLoop_0 {S : Type} (lo : nat) (body : S -> nat -> S) (init : S) :
  forLoop lo 0 body init = init.
Proof. reflexivity. Qed.

(** A loop whose body only pushes [f i] builds [map f] of its range. *)
Lemma forLoop_push {A : Type} (f : nat -> A) (body : list A -> nat -> list A) :
  (forall acc i, body acc i = acc ++ [f i]) ->
  forall lo n init, forLoop lo n body init = init ++ map f (seq lo n).
Proof.
  intros Hbody lo n. induction n as [| n IH]; intros init.
  - rewrite forLoop_0. simpl. now rewrite app_nil_r.
  - rewrite forLoop_S, Hbody, IH, seq_S, map_app, app_assoc. reflexivity.
Qed.

Lemma Qltb_lt (a b : number) : Qltb a b = true <-> a < b.
Proof.
  unfold Qltb. rewrite negb_true_iff. split; intros H.
  - apply Qnot_le_lt. intros Hle. apply Qle_bool_iff in Hle. congruence.
  - destruct (Qle_bool b a) eqn:E; [| reflexivity].
    apply Qle_bool_iff in E. lra.
Qed.

Lemma Qltb_ge (a b : number) : Qltb a b = false <-> b <= a.
Proof.
  unfold Qltb. rewrite negb_false_iff. apply Qle_bool_iff.
Qed.

Lemma ofNat_S (n : nat) : ofNat (S n) == ofNat n + 1.
Proof.
  unfold ofNat. rewrite Nat2Z.inj_succ, <- Z.add_1_r, inject_Z_plus. reflexivity.
Qed.

Lemma ofNat_lt (i n : nat) : (i < n)%nat <-> ofNat i < ofNat n.
Proof.
  unfold ofNat. rewrite <- Zlt_Qlt. lia.
Qed.

Lemma sum_app (l1 l2 : list number) : sum (l1 ++ l2) == sum l1 + sum l2.
Proof.
  induction l1 as [| x l1 IH]; simpl.
  - lra.
  - unfold sum in *. simpl. rewrite IH. lra.
Qed.

(** ** The return sequences *)


Lemma generateSequence_bestCase years baseReturn vol :
  generateSequence "bestCase" years baseReturn vol
  = map (bestCaseReturn years baseReturn vol) (seq 0 years).
Proof.
  unfold generateSequence. simpl.
  now rewrite (forLoop_push (bestCaseReturn years baseReturn vol)).
Qed.

Lemma generateSequence_worstCase years baseReturn vol :
  generateSequence "worstCase" years baseReturn vol
  = map (worstCaseReturn years baseReturn vol) (seq 0 years).
Proof.
  unfold generateSequence. simpl.
  now rewrite (forLoop_push (worstCaseReturn years baseReturn vol)).
Qed.

Lemma generateSequence_earlyBear years baseReturn vol :
  generateSequence "earlyBear" years baseReturn vol
  = map (earlyBearReturn years baseReturn vol) (seq 0 years).
Proof.
  unfold generateSequence. simpl.
  rewrite (forLoop_push (earlyBearReturn years baseReturn vol)); [reflexivity |].
  intros acc i. unfold earlyBearReturn. now destruct (Qltb _ _).
Qed.

Lemma generateSequence_average years baseReturn vol :
  generateSequence "average" years baseReturn vol
  = map (fun _ => baseReturn / 100) (seq 0 years).
Proof.
  unfold generateSequence. simpl.
  now rewrite (forLoop_push (fun _ => baseReturn / 100)).
Qed.

(** Every sequence has one return per year. *)
Lemma generateSequence_length type years baseReturn vol :
  List.length (generateSequence type years baseReturn vol) = years.
Proof.
  unfold generateSequence.
  repeat match goal with |- context [if ?c then _ else _] => destruct c end.
  - rewrite (forLoop_push (bestCaseReturn years baseReturn vol)) by reflexivity.
    simpl. now rewrite length_map, length_seq.
  - rewrite (forLoop_push (worstCaseReturn years baseReturn vol)) by reflexivity.
    simpl. now rewrite length_map, length_seq.
  - rewrite (forLoop_push (earlyBearReturn years baseReturn vol)).
    + simpl. now rewrite length_map, length_seq.
    + intros acc i. unfold earlyBearReturn. now destruct (Qltb _ _).
  - rewrite (forLoop_push (fun _ => baseReturn / 100)) by reflexivity.
    simpl. now rewrite length_map, length_seq.
Qed.

Lemma sum_bestCase_prefix (years k : nat) (baseReturn vol : number) :
  (1 <= years)%nat ->
  sum (map (bestCaseReturn years baseReturn vol) (seq 0 k))
  == (ofNat k * baseReturn
      + vol * (ofNat k * (ofNat k - 1) / ofNat years - ofNat k)) / 100.
Proof.
  intros Hy.
  assert (Hn : ~ ofNat years == 0).
  { apply (ofNat_lt 0 years) in Hy. change (ofNat 0) with 0 in Hy. lra. }
  induction k as [| k IH].
  - simpl. change (ofNat 0) with 0. field. exact Hn.
  - rewrite seq_S, map_app, sum_app, IH. cbn [map Nat.add sum fold_right].
    unfold bestCaseReturn. rewrite ofNat_S. field. exact Hn.
Qed.

Lemma sum_worstCase_prefix (years k : nat) (baseReturn vol : number) :
  (1 <= years)%nat ->
  sum (map (worstCaseReturn years baseReturn vol) (seq 0 k))
  == (ofNat k * baseReturn
      - vol * (ofNat k * (ofNat k - 1) / ofNat years - ofNat k)) / 100.
Proof.
  intros Hy.
  assert (Hn : ~ ofNat years == 0).
  { apply (ofNat_lt 0 years) in Hy. change (ofNat 0) with 0 in Hy. lra. }
  induction k as [| k IH].
  - simpl. change (ofNat 0) with 0. field. exact Hn.
  - rewrite seq_S, map_app, sum_app, IH. cbn [map Nat.add sum fold_right].
    unfold worstCaseReturn. rewrite ofNat_S. field. exact Hn.
Qed.

(** The mean of the [bestCase] sequence is below the nominal return by
    [vol / (100 * years)]: the ramp [progress = i / years] runs over
    [0 .. (years-1)/years] and is not centred on one half. *)
Lemma bestCase_mean (years : nat) (baseReturn vol : number) :
  (1 <= years)%nat ->
  mean (generateSequence "bestCase" years baseReturn vol)
  == baseReturn / 100 - vol / (100 * ofNat years).
Proof.
  intros Hy.
  assert (Hn : ~ ofNat years == 0).
  { apply (ofNat_lt 0 years) in Hy. change (ofNat 0) with 0 in Hy. lra. }
  unfold mean. rewrite generateSequence_length, generateSequence_bestCase.
  rewrite sum_bestCase_prefix by exact Hy. field. exact Hn.
Qed.

(** The mean of the [worstCase] sequence is above the nominal return by
    the same amount. *)
Lemma worstCase_mean (years : nat) (baseReturn vol : number) :
  (1 <= years)%nat ->
  mean (generateSequence "worstCase" years baseReturn vol)
  == baseReturn / 100 + vol / (100 * ofNat years).
Proof.
  intros Hy.
  assert (Hn : ~ ofNat years == 0).
  { apply (ofNat_lt 0 years) in Hy. change (ofNat 0) with 0 in Hy. lra. }
  unfold mean. rewrite generateSequence_length, generateSequence_worstCase.
  rewrite sum_worstCase_prefix by exact Hy. field. exact Hn.
Qed.

(** The flat sequence does have the nominal return as its mean. *)
Lemma average_mean (years : nat) (baseReturn vol : number) :
  (1 <= years)%nat ->
  mean (generateSequence "average" years baseReturn vol) == baseReturn / 100.
Proof.
  intros Hy.
  assert (Hn : ~ ofNat years == 0).
  { apply (ofNat_lt 0 years) in Hy. change (ofNat 0) with 0 in Hy. lra. }
  unfold mean. rewrite generateSequence_length, generateSequence_average.
  assert (Hs : forall k, sum (map (fun _ : nat => baseReturn / 100) (seq 0 k))
                         == ofNat k * (baseReturn / 100)).
  { induction k as [| k IH].
    - simpl. change (ofNat 0) with 0. lra.
    - rewrite seq_S, map_app, sum_app, IH, ofNat_S. unfold sum. simpl. lra. }
  rewrite Hs. field. exact Hn.
Qed.

(** C2 (the code departs from the claim).  For the Moderate Risk vehicle
    (12% return, 15% volatility) and 16 years to retirement, the mean of
    the [bestCase] sequence is 0.110625 and the mean of the [worstCase]
    sequence is 0.129375; neither is the nominal 0.12, while the mean of
    the [average] sequence is. *)
Theorem sequence_means_moderate_16_years :
  mean (generateSequence "bestCase" 16 12 15) == 0.110625 /\
  mean (generateSequence "worstCase" 16 12 15) == 0.129375 /\
  mean (generateSequence "average" 16 12 15) == 12 / 100 /\
  ~ mean (generateSequence "bestCase" 16 12 15) == 12 / 100 /\
  ~ mean (generateSequence "worstCase" 16 12 15) == 12 / 100.
Proof.
  repeat split; try reflexivity; intros H; vm_compute in H; discriminate H.
Qed.


Lemma ofNat_lt_ceiling (i : nat) (x : number) :
  ofNat i < x <-> (i < Z.to_nat (Qceiling x))%nat.
Proof.
  unfold ofNat. split; intros H.
  - assert (Hc : inject_Z (Z.of_nat i) < inject_Z (Qceiling x)).
    { eapply Qlt_le_trans; [exact H | apply Qle_ceiling]. }
    rewrite <- Zlt_Qlt in Hc. lia.
  - assert (Hz : (Z.of_nat i <= Qceiling x - 1)%Z) by lia.
    rewrite Zle_Qle in Hz.
    eapply Qle_lt_trans; [exact Hz | apply Qceiling_lt].
Qed.

Lemma idx_map_seq (f : nat -> number) (n i : nat) :
  (i < n)%nat -> idx (map f (seq 0 n)) i = f i.
Proof.
  intros Hi. unfold idx.
  rewrite (nth_indep _ 0 (f 0%nat)) by now rewrite length_map, length_seq.
  rewrite map_nth, seq_nth by exact Hi. reflexivity.
Qed.

(** C3 (counterexample).  With one year to retirement
    [floor (1 * 0.3) = 0], so the claim puts no index in the bear regime;
    the code tests [0 < 0.3] and gives index 0 the bear return. *)
Lemma earlyBear_one_year_is_bear :
  Math.floor (ofNat 1 * 0.3) = 0%Z /\
  idx (generateSequence "earlyBear" 1 12 15) 0 == (12 - 0.8 * 15) / 100 /\
  ~ idx (generateSequence "earlyBear" 1 12 15) 0 == (12 + 0.4 * 15) / 100.
Proof.
  split; [reflexivity |]. split; [reflexivity |].
  intros H. vm_compute in H. discriminate H.
Qed.

(** C3 (amended).  The [earlyBear] sequence gives the return
    [(baseReturn - 0.8 * vol) / 100] to exactly the indices [i] with
    [i < years * 0.3], which are the first [ceiling (years * 0.3)]
    indices, and [(baseReturn + 0.4 * vol) / 100] to every other index. *)
Theorem earlyBear_regimes (years : nat) (baseReturn vol : number) (i : nat) :
  (i < years)%nat ->
  idx (generateSequence "earlyBear" years baseReturn vol) i
  = if (i <? bearYears years)%nat
    then (baseReturn - vol * 0.8) / 100
    else (baseReturn + vol * 0.4) / 100.
Proof.
  intros Hi.
  rewrite generateSequence_earlyBear, idx_map_seq by exact Hi.
  unfold earlyBearReturn, bearYears.
  destruct (Qltb (ofNat i) (ofNat years * 0.3)) eqn:E.
  - apply Qltb_lt, ofNat_lt_ceiling in E.
    apply Nat.ltb_lt in E. now rewrite E.
  - destruct (i <? _)%nat eqn:E'; [| reflexivity].
    apply Nat.ltb_lt, ofNat_lt_ceiling, Qltb_lt in E'. congruence.
Qed.

Lemma earlyBear_regimes_witness :
  (1 < 4)%nat /\
  idx (generateSequence "earlyBear" 4 12 15) 1
  = if (1 <? bearYears 4)%nat then (12 - 15 * 0.8) / 100 else (12 + 15 * 0.4) / 100.
Proof.
  split; [lia | apply (earlyBear_regimes 4 12 15 1); lia].
Defined.

(** ** The full-cycle simulation: survival years *)

Section SurvivalYears.
Variable yearsUntilRetirement : nat.
Variable annualInvestment : number.
Variable retirementDuration : nat.
Variables annualRetirementIncome inflationRate salaryGrowthRate : number.
Variables preReturns postReturns : list number.

Let state : nat -> list number * number * nat :=
  retirementState yearsUntilRetirement annualInvestment retirementDuration
    annualRetirementIncome inflationRate salaryGrowthRate preReturns postReturns.
Let value : nat -> number :=
  drawdownValue yearsUntilRetirement annualInvestment retirementDuration
    annualRetirementIncome inflationRate salaryGrowthRate preReturns postReturns.
Let cycle : FullCycle.t :=
  simulateFullCycle yearsUntilRetirement annualInvestment retirementDuration
    annualRetirementIncome inflationRate salaryGrowthRate preReturns postReturns.

Lemma retirementState_0 : snd (state 0) = retirementDuration.
Proof.
  unfold state, retirementState.
  destruct (forLoop 0 yearsUntilRetirement _ _) as [allValues portfolioValue].
  reflexivity.
Qed.

Lemma retirementState_S (n : nat) :
  state (S n)
  = retirementStep retirementDuration annualRetirementIncome inflationRate
      postReturns (state n) n.
Proof.
  unfold state, retirementState.
  destruct (forLoop 0 yearsUntilRetirement _ _) as [allValues portfolioValue].
  now rewrite forLoop_S.
Qed.

Lemma simulateFullCycle_state :
  FullCycle.survivalYears cycle = snd (state retirementDuration) /\
  FullCycle.values cycle = fst (fst (state retirementDuration)) /\
  FullCycle.finalValue cycle = Math.max 0 (snd (fst (state retirementDuration))).
Proof.
  unfold cycle, simulateFullCycle, state, retirementState.
  destruct (forLoop 0 yearsUntilRetirement _ _) as [allValues portfolioValue].
  destruct (forLoop 0 retirementDuration _ _) as [[allValues' portfolioValue'] s].
  repeat split.
Qed.

(** Invariant of the retirement loop: [survivalYears] still has its
    initial value and no turn so far produced a value at or below 0, or it
    is the first turn that did. *)
Lemma survivalYears_invariant (n : nat) :
  (n <= retirementDuration)%nat ->
  (snd (state n) = retirementDuration /\
   forall y, (y < n)%nat -> 0 < value y)
  \/
  ((snd (state n) < n)%nat /\
   value (snd (state n)) <= 0 /\
   forall y, (y < snd (state n))%nat -> 0 < value y).
Proof.
  induction n as [| n IH]; intros Hn.
  - left. split; [apply retirementState_0 | intros y Hy; lia].
  - assert (Hv : value n = snd (fst (state (S n)))) by reflexivity.
    rewrite retirementState_S in Hv |- *.
    destruct (state n) as [[allValues portfolioValue] s] eqn:Est.
    cbn [snd fst] in IH.
    unfold retirementStep in Hv |- *.
    set (pv := (portfolioValue - _) * _) in *.
    destruct (Qle_bool pv 0) eqn:Ele; cbn [andb] in Hv |- *.
    + destruct (Nat.eqb s retirementDuration) eqn:Es; cbn [snd fst] in Hv |- *.
      * apply Nat.eqb_eq in Es.
        destruct IH as [[_ Hpos] | [Hlt _]]; [lia | | lia].
        right. split; [lia |]. split; [| exact Hpos].
        rewrite Hv. now apply Qle_bool_iff.
      * apply Nat.eqb_neq in Es.
        destruct IH as [[Heq _] | [Hlt [Hle Hpos]]]; [lia | contradiction |].
        right. split; [lia |]. split; assumption.
    + cbn [snd fst] in Hv |- *.
      assert (Hpv : 0 < pv).
      { apply Qnot_le_lt. intros H. apply Qle_bool_iff in H. congruence. }
      destruct IH as [[Heq Hpos] | [Hlt [Hle Hpos]]]; [lia | |].
      * left. split; [exact Heq |]. intros y Hy.
        destruct (Nat.eq_dec y n) as [-> | Hne]; [now rewrite Hv |].
        apply Hpos. lia.
      * right. split; [lia |]. split; assumption.
Qed.

(** C4.  [survivalYears] is the retirement duration if and only if no
    turn of the drawdown loop produces a portfolio value at or below 0;
    otherwise it is the first loop index whose value (before the floor at
    0) is at or below 0. *)
Theorem survivalYears_first_depletion :
  (FullCycle.survivalYears cycle = retirementDuration <->
   forall y, (y < retirementDuration)%nat -> 0 < value y)
  /\
  (FullCycle.survivalYears cycle <> retirementDuration ->
   (FullCycle.survivalYears cycle < retirementDuration)%nat /\
   value (FullCycle.survivalYears cycle) <= 0 /\
   forall y, (y < FullCycle.survivalYears cycle)%nat -> 0 < value y).
Proof.
  destruct simulateFullCycle_state as [-> _].
  destruct (survivalYears_invariant retirementDuration (Nat.le_refl _))
    as [[Heq Hpos] | [Hlt [Hle Hpos]]].
  - split; [tauto | intros Hne; contradiction].
  - split.
    + split; [lia |]. intros Hall. specialize (Hall _ Hlt). lra.
    + intros _. repeat split; assumption.
Qed.

(** The recorded trajectory: the values of the accumulation phase, then
    for each turn of the retirement loop its value floored at 0.  A
    recorded entry is 0 exactly when the value before the floor is at or
    below 0. *)
Lemma retirementState_values (n : nat) :
  fst (fst (state n))
  = fst (forLoop 0 yearsUntilRetirement
           (accumulationStep annualInvestment salaryGrowthRate preReturns) ([0], 0))
    ++ map (fun y => Math.max 0 (value y)) (seq 0 n).
Proof.
  induction n as [| n IH].
  - unfold state, retirementState.
    destruct (forLoop 0 yearsUntilRetirement _ _) as [allValues portfolioValue].
    cbn. now rewrite app_nil_r.
  - assert (Hv : value n = snd (fst (state (S n)))) by reflexivity.
    rewrite retirementState_S in Hv |- *.
    destruct (state n) as [[allValues portfolioValue] s].
    cbn [fst] in IH. unfold retirementStep in Hv |- *.
    rewrite seq_S, map_app, app_assoc, <- IH. cbn [map Nat.add].
    destruct (Qle_bool _ 0 && Nat.eqb s retirementDuration);
      cbn [fst snd] in Hv |- *; now rewrite Hv.
Qed.

End SurvivalYears.

(** Each scenario of [calculateSequenceRisk] records the survival years
    and the final value of the full-cycle simulation of its own two return
    sequences. *)
Lemma scenarios_of_simulateFullCycle
    (yearsUntilRetirement : nat) (annualInvestment preRetirementReturn volatility : number)
    (retirementDuration : nat)
    (annualRetirementIncome inflationRate salaryGrowthRate postRetirementReturn : number) :
  Forall (fun sc =>
            let cycle :=
              simulateFullCycle yearsUntilRetirement annualInvestment
                retirementDuration annualRetirementIncome inflationRate
                salaryGrowthRate (SequenceScenario.preRetirement sc)
                (SequenceScenario.postRetirement sc) in
            SequenceScenario.survivalYears sc = FullCycle.survivalYears cycle /\
            SequenceScenario.finalValue sc = FullCycle.finalValue cycle)
    (scenarios yearsUntilRetirement annualInvestment preRetirementReturn volatility
       retirementDuration annualRetirementIncome inflationRate salaryGrowthRate
       postRetirementReturn).
Proof.
  unfold scenarios. repeat constructor.
Qed.


(** ** The Monte Carlo reduction *)

Lemma leb_le (a b : number) : NumberOrder.leb a b = true <-> a <= b.
Proof.
  unfold NumberOrder.leb, NumberOrder.compareFn. rewrite Qle_bool_iff.
  split; intros H; lra.
Qed.




Section MonteCarloReduction.
Variable z : nat -> number.
Variable thisYear : Z.
Variable yearsUntilRetirement : nat.
Variables annualInvestment expectedReturn volatility targetCorpus : number.
Variable currentAge : Z.
Variable salaryGrowthRate : number.

Let step : list (list number) * nat -> nat -> list (list number) * nat :=
  simulationStep z yearsUntilRetirement annualInvestment expectedReturn volatility
    salaryGrowthRate.
Let sims : list (list number) :=
  simulations z yearsUntilRetirement annualInvestment expectedReturn volatility
    salaryGrowthRate.
Let row : nat -> MonteCarloProjection.t :=
  monteCarloRow z thisYear yearsUntilRetirement annualInvestment expectedReturn
    volatility targetCorpus currentAge salaryGrowthRate.

Lemma simulationLoop_length (n : nat) (st : list (list number) * nat) :
  List.length (fst (forLoop 0 n step st)) = (List.length (fst st) + n)%nat.
Proof.
  induction n as [| n IH].
  - rewrite forLoop_0. lia.
  - rewrite forLoop_S.
    destruct (forLoop 0 n step st) as [simulations k]. cbn [fst] in IH.
    unfold step, simulationStep.
    destruct (forLoop 1 yearsUntilRetirement _ _) as [[yearlyValues pv] k'].
    cbn [fst]. rewrite length_app, IH. simpl. lia.
Qed.

(** There are [numSimulations] paths. *)
Lemma simulations_length : List.length sims = numSimulations.
Proof.
  unfold sims, simulations. fold step. now rewrite simulationLoop_length.
Qed.

Lemma pathLoop_length (n : nat) (st : list number * number * nat) :
  List.length
    (fst (fst (forLoop 1 n
                 (pathStep z annualInvestment expectedReturn volatility salaryGrowthRate)
                 st)))
  = (List.length (fst (fst st)) + n)%nat.
Proof.
  induction n as [| n IH].
  - rewrite forLoop_0. lia.
  - rewrite forLoop_S.
    destruct (forLoop 1 n _ st) as [[yearlyValues pv] k]. cbn [fst] in IH.
    unfold pathStep, generateNormalRandom. cbn [fst].
    rewrite length_app, IH. simpl. lia.
Qed.

(** Every path holds one value per year, year 0 included, so that
    [sim[year]] is defined for every year of the reduction. *)
Lemma simulations_paths (n : nat) (st : list (list number) * nat) :
  Forall (fun sim => List.length sim = S yearsUntilRetirement) (fst st) ->
  Forall (fun sim => List.length sim = S yearsUntilRetirement)
    (fst (forLoop 0 n step st)).
Proof.
  intros Hst. induction n as [| n IH].
  - now rewrite forLoop_0.
  - rewrite forLoop_S.
    destruct (forLoop 0 n step st) as [simulations k]. cbn [fst] in IH.
    unfold step, simulationStep.
    pose proof (pathLoop_length yearsUntilRetirement ([0], 0, k)) as Hlen.
    destruct (forLoop 1 yearsUntilRetirement _ _) as [[yearlyValues pv] k'].
    cbn [fst] in Hlen |- *. apply Forall_app. split; [exact IH |].
    constructor; [| constructor]. rewrite Hlen. reflexivity.
Qed.

Lemma yearValues_length (year : nat) :
  List.length
    (map (fun sim : list number => idx sim year) sims) = numSimulations.
Proof.
  now rewrite length_map, simulations_length.
Qed.

Lemma runMonteCarloSimulation_rows :
  runMonteCarloSimulation z thisYear yearsUntilRetirement annualInvestment
    expectedReturn volatility targetCorpus currentAge salaryGrowthRate
  = map row (seq 0 (S yearsUntilRetirement)).
Proof.
  unfold runMonteCarloSimulation.
  now rewrite (forLoop_push row).
Qed.


End MonteCarloReduction.

(** ** The plan: corpus, solver and projections *)

Section PlanProperties.
Variable z : nat -> number.
Variable thisYear : Z.
Variables age retAge : Z.
Variable income : number.
Variable vehicle : InvestmentVehicle.t.
Variables replacementRatio withdrawalRate annualSalaryGrowth : number.
Variable postRetVehicle : InvestmentVehicle.t.

Let nYears : nat := years age retAge.
Let rate : number := InvestmentVehicle.returnRate vehicle / 100.
Let corpus : number :=
  finalTargetCorpus age retAge income vehicle replacementRatio withdrawalRate
    annualSalaryGrowth.
Let invest : number :=
  annualInvestment age retAge income vehicle replacementRatio withdrawalRate
    annualSalaryGrowth.
Let income' : number :=
  futureRetirementIncome age retAge income replacementRatio annualSalaryGrowth.

(** The inner loop of the solver computes the accumulation formula. *)
Lemma testAccumulation_formula (testAnnualInvestment : number) :
  fst (testAccumulation age retAge vehicle annualSalaryGrowth testAnnualInvestment)
  = accumulation testAnnualInvestment annualSalaryGrowth rate nYears.
Proof.
  unfold testAccumulation. fold nYears.
  induction nYears as [| n IH].
  - reflexivity.
  - rewrite forLoop_S.
    destruct (forLoop 1 n _ _) as [testTotalValue testCumulativeContribution].
    cbn [fst] in IH |- *. rewrite IH. reflexivity.
Qed.

(** Invariant of the solver loop: it stops within the tolerance, or it
    used every turn it had. *)
Lemma solverLoop_stops (fuel : nat) :
  forall testAnnualInvestment iterations,
    let out :=
      solverLoop age retAge income vehicle replacementRatio withdrawalRate
        annualSalaryGrowth fuel testAnnualInvestment iterations in
    Math.abs (corpus - accumulation (fst out) annualSalaryGrowth rate nYears) < 1000
    \/ snd out = (iterations + fuel)%nat.
Proof.
  induction fuel as [| fuel IH]; intros guess iterations; cbn zeta.
  - right. simpl. lia.
  - cbn [solverLoop]. fold corpus.
    destruct (Qltb _ 1000) eqn:E.
    + left. apply Qltb_lt in E. cbn [fst].
      now rewrite testAccumulation_formula in E.
    + specialize (IH (guess
                      + (corpus - fst (testAccumulation age retAge vehicle
                                         annualSalaryGrowth guess))
                        / inject_Z (yearsUntilRetirement age retAge) / 10)
                     (S iterations)).
      cbn zeta in IH. destruct IH as [IH | IH]; [left; exact IH | right].
      rewrite IH. lia.
Qed.

(** C1.  The solver always returns; running the accumulation formula with
    its output gives a total within 1000 of the target corpus, or the loop
    made its 100 turns. *)
Theorem solver_within_tolerance_or_capped :
  Math.abs (corpus - accumulation invest annualSalaryGrowth rate nYears) < 1000
  \/ iterations age retAge income vehicle replacementRatio withdrawalRate
       annualSalaryGrowth = 100%nat.
Proof.
  unfold invest, annualInvestment, iterations, solver.
  exact (solverLoop_stops maxIterations _ 0%nat).
Qed.

Lemma nth_error_map_seq {A : Type} (f : nat -> A) (n i : nat) :
  (i < n)%nat -> nth_error (map f (seq 0 n)) i = Some (f i).
Proof.
  intros Hi. apply map_nth_error.
  rewrite (nth_error_nth' _ 0%nat) by now rewrite length_seq.
  now rewrite seq_nth.
Qed.

(** Invariant of the accumulation loop: after [n] turns [totalValue] is
    the formula at year [n - 1], and the row of each year holds the
    formula at that year. *)
Lemma yearlyLoop_totalValue (n : nat) :
  let st :=
    forLoop 0 n
      (yearlyStep thisYear age retAge income vehicle replacementRatio withdrawalRate
         annualSalaryGrowth) ([], 0, 0) in
  snd st = accumulation invest annualSalaryGrowth rate (Nat.pred n) /\
  map YearlyProjection.totalValue (fst (fst st))
  = map (accumulation invest annualSalaryGrowth rate) (seq 0 n).
Proof.
  induction n as [| n IH]; cbn zeta in *.
  - split; reflexivity.
  - rewrite forLoop_S.
    destruct (forLoop 0 n _ _) as [[rows cumulativeContribution] totalValue].
    cbn [fst snd] in IH. destruct IH as [Htv Hrows].
    unfold yearlyStep. fold invest. cbn [Nat.add Nat.pred].
    destruct n as [| n]; cbn [Nat.ltb Nat.leb Nat.pred fst snd] in *.
    + subst totalValue. split; [reflexivity |].
      rewrite map_app, Hrows. reflexivity.
    + subst totalValue. split; [reflexivity |].
      rewrite map_app, Hrows, (seq_S (S n)), map_app. reflexivity.
Qed.

Lemma yearlyProjections_totalValue (y : nat) :
  (age < retAge)%Z ->
  (y <= nYears)%nat ->
  exists p,
    nth_error (yearlyProjections thisYear age retAge income vehicle replacementRatio
                 withdrawalRate annualSalaryGrowth) y = Some p /\
    YearlyProjection.totalValue p = accumulation invest annualSalaryGrowth rate y.
Proof.
  intros Hage Hy. unfold yearlyProjections.
  assert (Hn : Z.to_nat (yearsUntilRetirement age retAge + 1) = S nYears).
  { unfold nYears, years, yearsUntilRetirement in *. lia. }
  rewrite Hn.
  destruct (yearlyLoop_totalValue (S nYears)) as [_ Hrows].
  assert (Hy' : (y < S nYears)%nat) by lia.
  pose proof (nth_error_map_seq (accumulation invest annualSalaryGrowth rate) _ _ Hy')
    as Hnth.
  rewrite <- Hrows in Hnth.
  rewrite nth_error_map in Hnth.
  destruct (nth_error _ y) as [p |]; [| discriminate Hnth].
  exists p. split; [reflexivity |]. now inversion Hnth.
Qed.

(** The total value of the last accumulation row, from which the result
    takes its totals, is the formula at the retirement year. *)
Lemma lastYearlyProjection_totalValue (lastRow : YearlyProjection.t) :
  (age < retAge)%Z ->
  lastYearlyProjection thisYear age retAge income vehicle replacementRatio
    withdrawalRate annualSalaryGrowth = Some lastRow ->
  YearlyProjection.totalValue lastRow
  = accumulation invest annualSalaryGrowth rate nYears.
Proof.
  intros Hage Hlast. unfold lastYearlyProjection in Hlast.
  destruct (yearlyProjections_totalValue nYears Hage (Nat.le_refl _)) as [p [Hp Htv]].
  assert (Hlen : List.length
                   (yearlyProjections thisYear age retAge income vehicle
                      replacementRatio withdrawalRate annualSalaryGrowth)
                 = S nYears).
  { destruct (yearlyLoop_totalValue (S nYears)) as [_ Hrows].
    apply (f_equal (@List.length number)) in Hrows.
    rewrite !length_map, length_seq in Hrows.
    unfold yearlyProjections.
    replace (Z.to_nat (yearsUntilRetirement age retAge + 1)) with (S nYears);
      [exact Hrows |].
    unfold nYears, years, yearsUntilRetirement in *. lia. }
  rewrite Hlen in Hlast. replace (S nYears - 1)%nat with nYears in Hlast by lia.
  congruence.
Qed.

(** The reference value of the Monte Carlo rows is the same formula. *)
Lemma deterministicValue_formula (invest' expectedReturn growth : number) (y : nat) :
  deterministicValue invest' expectedReturn growth y
  = accumulation invest' growth (expectedReturn / 100) y.
Proof.
  unfold deterministicValue.
  destruct y as [| y]; [reflexivity |].
  cbn [Nat.ltb Nat.leb].
  induction (S y) as [| n IH]; [reflexivity |].
  rewrite forLoop_S, IH. reflexivity.
Qed.

(** C9.  For every year [y] in [0 .. yearsUntilRetirement] the
    deterministic value of Monte Carlo row [y] equals the total value of
    the accumulation projection of year [y]. *)
Theorem deterministic_matches_projection (volatility : number) (y : nat) :
  (age < retAge)%Z ->
  (y <= nYears)%nat ->
  exists m p,
    nth_error (runMonteCarloSimulation z thisYear nYears invest
                 (InvestmentVehicle.returnRate vehicle) volatility corpus age
                 annualSalaryGrowth) y = Some m /\
    nth_error (yearlyProjections thisYear age retAge income vehicle replacementRatio
                 withdrawalRate annualSalaryGrowth) y = Some p /\
    MonteCarloProjection.deterministic m = YearlyProjection.totalValue p.
Proof.
  intros Hage Hy.
  destruct (yearlyProjections_totalValue y Hage Hy) as [p [Hp Htv]].
  eexists. exists p. split; [| split; [exact Hp |]].
  - rewrite runMonteCarloSimulation_rows.
    apply nth_error_map_seq. lia.
  - cbn [MonteCarloProjection.deterministic monteCarloRow].
    rewrite Htv. apply deterministicValue_formula.
Qed.

(** *** The drawdown projection *)

Let postStep : list PostRetirementProjection.t * number -> nat
               -> list PostRetirementProjection.t * number :=
  postRetirementStep thisYear age retAge income replacementRatio annualSalaryGrowth
    postRetVehicle.
Let postRows : list PostRetirementProjection.t :=
  postRetirementProjections thisYear age retAge income vehicle replacementRatio
    withdrawalRate annualSalaryGrowth postRetVehicle.
Let balance : nat -> number :=
  drawdownBalance thisYear age retAge income vehicle replacementRatio withdrawalRate
    annualSalaryGrowth postRetVehicle.
Let withdrawn : nat -> number :=
  withdrawalAt age retAge income replacementRatio annualSalaryGrowth.
Let postRate : number := InvestmentVehicle.returnRate postRetVehicle / 100.

Lemma drawdownBalance_0 : balance 0 = corpus.
Proof. reflexivity. Qed.

Lemma drawdownBalance_S (i : nat) :
  balance (S i) = (balance i - withdrawn (S i)) * (1 + postRate).
Proof.
  unfold balance, drawdownBalance. rewrite (forLoop_S 0 (S i)).
  destruct (forLoop 0 (S i) _ _) as [rows portfolioValue].
  reflexivity.
Qed.

(** The rows pushed by the first [n] turns of the drawdown loop. *)
Lemma postRetirementLoop_rows (n : nat) :
  let rows := fst (forLoop 0 n postStep ([], corpus)) in
  map PostRetirementProjection.portfolioValue rows
  = map (fun i => Math.max 0 (balance i)) (seq 0 n) /\
  map PostRetirementProjection.withdrawal rows = map withdrawn (seq 0 n).
Proof.
  induction n as [| n IH]; cbn zeta in *.
  - split; reflexivity.
  - assert (Hb : balance n = snd (forLoop 0 (S n) postStep ([], corpus)))
      by reflexivity.
    rewrite forLoop_S in Hb |- *.
    destruct (forLoop 0 n postStep ([], corpus)) as [rows portfolioValue].
    cbn [fst] in IH. destruct IH as [Hpv Hw].
    unfold postStep, postRetirementStep in Hb |- *. cbn [fst snd Nat.add] in Hb |- *.
    rewrite !map_app, Hpv, Hw, seq_S, !map_app.
    cbn [map PostRetirementProjection.portfolioValue
         PostRetirementProjection.withdrawal Nat.add].
    rewrite <- Hb. split; reflexivity.
Qed.

Lemma postRetirementProjections_rows :
  map PostRetirementProjection.portfolioValue postRows
  = map (fun i => Math.max 0 (balance i)) (seq 0 (S retirementDuration)) /\
  map PostRetirementProjection.withdrawal postRows
  = map withdrawn (seq 0 (S retirementDuration)).
Proof.
  pose proof (postRetirementLoop_rows (S retirementDuration)) as Hrows.
  cbn zeta in Hrows. unfold postStep, corpus in Hrows.
  unfold postRows, postRetirementProjections. exact Hrows.
Qed.

Lemma postRetirementProjections_length :
  List.length postRows = S retirementDuration.
Proof.
  destruct postRetirementProjections_rows as [Hpv _].
  apply (f_equal (@List.length number)) in Hpv.
  now rewrite !length_map, length_seq in Hpv.
Qed.

Lemma postRetirementProjections_nth (i : nat) (r : PostRetirementProjection.t) :
  nth_error postRows i = Some r ->
  (i <= retirementDuration)%nat /\
  PostRetirementProjection.portfolioValue r = Math.max 0 (balance i) /\
  PostRetirementProjection.withdrawal r = withdrawn i.
Proof.
  intros Hr.
  assert (Hi : (i < S retirementDuration)%nat).
  { rewrite <- postRetirementProjections_length. apply nth_error_Some. congruence. }
  destruct postRetirementProjections_rows as [Hpv Hw].
  apply (f_equal (fun l => nth_error l i)) in Hpv, Hw.
  rewrite nth_error_map, Hr in Hpv, Hw.
  rewrite nth_error_map_seq in Hpv, Hw by exact Hi.
  cbn [option_map] in Hpv, Hw.
  split; [lia |]. split; [now inversion Hpv | now inversion Hw].
Qed.

(** C6.  The drawdown projection has one row for each year
    [0 .. retirementDuration] and every recorded portfolio value is at
    least 0. *)
Theorem portfolioValue_nonnegative :
  List.length postRows = S retirementDuration /\
  Forall (fun r => 0 <= PostRetirementProjection.portfolioValue r) postRows.
Proof.
  split; [apply postRetirementProjections_length |].
  apply Forall_forall. intros r Hin.
  apply In_nth_error in Hin. destruct Hin as [i Hi].
  apply postRetirementProjections_nth in Hi. destruct Hi as [_ [-> _]].
  apply Q.le_max_l.
Qed.

(** Once the value before the floor is at or below 0 it stays there, when
    the following withdrawals are not negative and the return is above
    -100%. *)
Lemma drawdownBalance_absorbing (i : nat) :
  0 < 1 + postRate ->
  (forall k, (k <= retirementDuration)%nat -> 0 <= withdrawn k) ->
  balance i <= 0 ->
  forall d, (i + d <= retirementDuration)%nat -> balance (i + d) <= 0.
Proof.
  intros Hrate Hw Hi d. induction d as [| d IH]; intros Hd.
  - now rewrite Nat.add_0_r.
  - rewrite Nat.add_succ_r, drawdownBalance_S.
    assert (Hb : balance (i + d) <= 0) by (apply IH; lia).
    assert (Hk : 0 <= withdrawn (S (i + d))) by (apply Hw; lia).
    assert (Hp : 0 <= (withdrawn (S (i + d)) - balance (i + d)) * (1 + postRate)).
    { apply Qmult_le_0_compat; lra. }
    lra.
Qed.

Lemma max_0_eq_0 (x : number) : Math.max 0 x == 0 <-> x <= 0.
Proof.
  unfold Math.max. split; intros H.
  - rewrite <- H. apply Q.le_max_r.
  - now apply Q.max_l.
Qed.

(** C10.  Depletion is absorbing in the drawdown projection: when the
    post-retirement return is above -100% and no withdrawal is negative,
    every row after a row whose portfolio value is 0 has portfolio value
    0 too. *)
Theorem depletion_absorbing (i j : nat) (ri rj : PostRetirementProjection.t) :
  -100 < InvestmentVehicle.returnRate postRetVehicle ->
  Forall (fun r => 0 <= PostRetirementProjection.withdrawal r) postRows ->
  (i <= j)%nat ->
  nth_error postRows i = Some ri ->
  nth_error postRows j = Some rj ->
  PostRetirementProjection.portfolioValue ri == 0 ->
  PostRetirementProjection.portfolioValue rj == 0.
Proof.
  intros Hrate Hall Hij Hi Hj Hzero.
  apply postRetirementProjections_nth in Hi, Hj.
  destruct Hi as [_ [Hpi _]]. destruct Hj as [Hjd [Hpj _]].
  rewrite Hpi in Hzero. rewrite Hpj.
  apply max_0_eq_0 in Hzero. apply max_0_eq_0.
  replace j with (i + (j - i))%nat by lia.
  apply drawdownBalance_absorbing; [| | exact Hzero | lia].
  { unfold postRate, Qdiv. change (/ 100) with (1 # 100). lra. }
  intros k Hk.
  destruct (nth_error postRows k) as [rk |] eqn:Ek.
  - rewrite Forall_forall in Hall.
    pose proof (Hall rk (nth_error_In _ _ Ek)) as Hwk.
    apply postRetirementProjections_nth in Ek.
    destruct Ek as [_ [_ Hw]]. now rewrite <- Hw.
  - apply nth_error_None in Ek.
    rewrite postRetirementProjections_length in Ek. lia.
Qed.

(** No withdrawal is negative when the income to replace is not. *)
Lemma withdrawals_nonnegative :
  0 <= income' ->
  Forall (fun r => 0 <= PostRetirementProjection.withdrawal r) postRows.
Proof.
  intros Hincome. apply Forall_forall. intros r Hin.
  apply In_nth_error in Hin. destruct Hin as [i Hi].
  apply postRetirementProjections_nth in Hi. destruct Hi as [_ [_ ->]].
  unfold withdrawn, withdrawalAt. fold income'.
  destruct (Nat.eqb i 0); [apply Qle_refl |].
  apply Qmult_le_0_compat; [exact Hincome |].
  apply Qpower_0_le. unfold inflationRate. lra.
Qed.

(** *** The target corpus *)

(** C8.  The target corpus of the result is the larger of the corpus by
    safe withdrawal rate, [futureRetirementIncome / safeWithdrawalRate],
    and the corpus by annuity, [futureRetirementIncome * pvFactor], and so
    it is at least each of them. *)
Theorem targetCorpus_is_larger_estimate (lastRow : YearlyProjection.t) :
  let realReturn := InvestmentVehicle.returnRate vehicle / 100 - 0.03 in
  let corpusBySWR := income' / withdrawalRate in
  let corpusByAnnuity :=
    targetCorpusAnnuity age retAge income vehicle replacementRatio annualSalaryGrowth in
  CalculationResults.targetRetirementCorpus
    (results z thisYear age retAge income vehicle replacementRatio withdrawalRate
       annualSalaryGrowth postRetVehicle lastRow)
  = Qmax corpusBySWR corpusByAnnuity /\
  (0 < realReturn ->
   corpusByAnnuity
   == income' * ((1 - Qpower (1 + realReturn) (- 40)) / realReturn)) /\
  (realReturn <= 0 -> corpusByAnnuity == income' * 40) /\
  corpusBySWR <= corpus /\
  corpusByAnnuity <= corpus.
Proof.
  cbn zeta. split; [reflexivity |].
  unfold targetCorpusAnnuity, pvFactor, realReturnInRetirement, inflationRate.
  fold income'. repeat split.
  - intros Hpos. apply Qltb_lt in Hpos. rewrite Hpos. reflexivity.
  - intros Hneg. apply Qltb_ge in Hneg. rewrite Hneg. reflexivity.
  - apply Q.le_max_l.
  - apply Q.le_max_r.
Qed.

End PlanProperties.

(** ** The volatility gate and the result *)

Lemma volatilityGate_Some (vehicle : InvestmentVehicle.t) (v : number) :
  volatilityGate vehicle = Some v ->
  InvestmentVehicle.volatility vehicle = Some v /\ 0 < v.
Proof.
  unfold volatilityGate.
  destruct (InvestmentVehicle.volatility vehicle) as [vol |]; [| discriminate].
  destruct (negb (Qeq_bool vol 0) && Qltb 0 vol) eqn:E; [| discriminate].
  intros H. inversion H; subst v.
  apply andb_true_iff in E. destruct E as [_ E]. apply Qltb_lt in E.
  split; [reflexivity | exact E].
Qed.

Lemma volatilityGate_None (vehicle : InvestmentVehicle.t) :
  volatilityGate vehicle = None -> ~ volatilityPositive vehicle.
Proof.
  unfold volatilityGate, volatilityPositive. intros H [vol [Hv Hpos]].
  rewrite Hv in H.
  assert (Hne : Qeq_bool vol 0 = false).
  { destruct (Qeq_bool vol 0) eqn:E; [| reflexivity].
    apply Qeq_bool_iff in E. lra. }
  apply Qltb_lt in Hpos. rewrite Hne, Hpos in H. discriminate H.
Qed.

Lemma volatilityGate_iff (vehicle : InvestmentVehicle.t) :
  volatilityGate vehicle <> None <-> volatilityPositive vehicle.
Proof.
  split.
  - destruct (volatilityGate vehicle) as [v |] eqn:E; [| congruence].
    intros _. exists v. now apply volatilityGate_Some.
  - intros Hpos Hnone. now apply volatilityGate_None in Hnone.
Qed.

(** A stored result comes from validated inputs and two catalogue
    vehicles, and is the record built by [results]. *)
Lemma calculateRetirement_SetResults z thisYear s r :
  calculateRetirement z thisYear s = SetResults r ->
  exists age retAge income vehicle ratio rate growth postRetVehicle lastRow,
    FormState.currentAge s = Some age /\
    FormState.retirementAge s = Some retAge /\
    FormState.currentIncome s = Some income /\
    (age < retAge)%Z /\
    0 < income /\
    nth_error investmentVehicles (FormState.selectedVehicle s) = Some vehicle /\
    In postRetVehicle investmentVehicles /\
    r = results z thisYear age retAge income vehicle ratio rate growth
          postRetVehicle lastRow.
Proof.
  unfold calculateRetirement.
  destruct (FormState.currentAge s) as [age |]; [| discriminate].
  destruct (FormState.retirementAge s) as [retAge |]; [| discriminate].
  destruct (FormState.currentIncome s) as [income |]; [| discriminate].
  destruct (FormState.retirementIncomePercent s) as [percent |]; [| discriminate].
  destruct (FormState.safeWithdrawalRate s) as [swr |]; [| discriminate].
  destruct (FormState.salaryGrowth s) as [growth |]; [| discriminate].
  cbn [option_map].
  destruct (retAge <=? age)%Z eqn:Eage; [discriminate |].
  destruct (Qle_bool income 0) eqn:Eincome; [discriminate |].
  destruct (nth_error investmentVehicles (FormState.selectedVehicle s))
    as [vehicle |] eqn:Ev; [| discriminate].
  destruct (if FormState.useLowestRiskPostRetirement s
            then nth_error investmentVehicles 0
            else nth_error investmentVehicles (FormState.postRetirementVehicle s))
    as [postRetVehicle |] eqn:Ep; [| discriminate].
  destruct (lastYearlyProjection _ _ _ _ _ _ _ _) as [lastRow |]; [| discriminate].
  intros H. inversion H as [Hr].
  exists age, retAge, income, vehicle, (percent / 100), (swr / 100), (growth / 100),
    postRetVehicle, lastRow.
  repeat split; try reflexivity.
  - apply Z.leb_gt in Eage. exact Eage.
  - apply Qnot_le_lt. intros Hle. apply Qle_bool_iff in Hle. congruence.
  - destruct (FormState.useLowestRiskPostRetirement s);
      now apply nth_error_In in Ep.
Qed.

(** C7.  A stored result has Monte Carlo projections, and sequence
    scenarios, if and only if the volatility of the chosen vehicle is
    strictly positive; for the Very Low Risk and Low Risk vehicles of the
    catalogue both are absent. *)
Theorem volatility_gate z thisYear s r :
  calculateRetirement z thisYear s = SetResults r ->
  exists vehicle,
    nth_error investmentVehicles (FormState.selectedVehicle s) = Some vehicle /\
    (CalculationResults.monteCarloProjections r <> None <-> volatilityPositive vehicle) /\
    (CalculationResults.sequenceScenarios r <> None <-> volatilityPositive vehicle) /\
    (InvestmentVehicle.name vehicle = "Very Low Risk"%string
     \/ InvestmentVehicle.name vehicle = "Low Risk"%string ->
     CalculationResults.monteCarloProjections r = None /\
     CalculationResults.sequenceScenarios r = None).
Proof.
  intros H. apply calculateRetirement_SetResults in H.
  destruct H as (age & retAge & income & vehicle & ratio & rate & growth
                 & postRetVehicle & lastRow & _ & _ & _ & _ & _ & Hv & _ & ->).
  exists vehicle. split; [exact Hv |].
  cbn [results CalculationResults.monteCarloProjections
       CalculationResults.sequenceScenarios].
  unfold monteCarloProjections, sequenceScenarios, sequenceResults.
  pose proof (volatilityGate_iff vehicle) as Hgate.
  split; [| split].
  - rewrite <- Hgate. destruct (volatilityGate vehicle); split; congruence.
  - rewrite <- Hgate. destruct (volatilityGate vehicle); cbn [option_map];
      split; congruence.
  - intros Hname.
    assert (Hzero : InvestmentVehicle.volatility vehicle = Some 0).
    { destruct (FormState.selectedVehicle s) as [| [| [| [| [| n]]]]];
        cbn in Hv; try (destruct n; discriminate Hv);
        injection Hv as <-; cbn in Hname |- *;
        try reflexivity; destruct Hname as [Hn | Hn]; discriminate Hn. }
    unfold volatilityGate. rewrite Hzero. cbn. split; reflexivity.
Qed.

(** The accumulation projection is never empty on validated ages, so its
    last row is defined. *)
Lemma lastYearlyProjection_defined thisYear age retAge income vehicle ratio rate growth :
  (age < retAge)%Z ->
  exists lastRow,
    lastYearlyProjection thisYear age retAge income vehicle ratio rate growth
    = Some lastRow.
Proof.
  intros Hage. unfold lastYearlyProjection.
  destruct (nth_error _ _) as [row |] eqn:E; [now exists row |].
  apply nth_error_None in E.
  destruct (yearlyProjections_totalValue thisYear age retAge income vehicle ratio
              rate growth 0 Hage (Nat.le_0_l _)) as [p [Hp _]].
  assert (Hlen : (0 < List.length (yearlyProjections thisYear age retAge income
                                     vehicle ratio rate growth))%nat).
  { apply nth_error_Some. congruence. }
  lia.
Qed.

(** Valid inputs always produce a result. *)
Lemma calculateRetirement_valid z thisYear s :
  validForm s -> exists r, calculateRetirement z thisYear s = SetResults r.
Proof.
  intros (age & retAge & income & percent & swr & growth
          & Ha & Hr & Hi & Hp & Hs & Hg & Hage & Hincome & Hv & Hpost).
  unfold calculateRetirement. rewrite Ha, Hr, Hi, Hp, Hs, Hg. cbn [option_map].
  assert (Eage : (retAge <=? age)%Z = false) by now apply Z.leb_gt.
  assert (Eincome : Qle_bool income 0 = false).
  { destruct (Qle_bool income 0) eqn:E; [| reflexivity].
    apply Qle_bool_iff in E. lra. }
  rewrite Eage, Eincome.
  destruct (nth_error investmentVehicles (FormState.selectedVehicle s))
    as [vehicle |] eqn:Ev; [| apply nth_error_None in Ev; lia].
  destruct (if FormState.useLowestRiskPostRetirement s
            then nth_error investmentVehicles 0
            else nth_error investmentVehicles (FormState.postRetirementVehicle s))
    as [postRetVehicle |] eqn:Ep.
  - destruct (lastYearlyProjection_defined thisYear age retAge income vehicle
                (percent / 100) (swr / 100) (growth / 100) Hage) as [lastRow ->].
    eexists. reflexivity.
  - destruct (FormState.useLowestRiskPostRetirement s); [discriminate Ep |].
    destruct Hpost as [Hpost | Hpost]; [discriminate Hpost |].
    apply nth_error_None in Ep. lia.
Qed.

(** ** The properties on the example *)

Lemma exampleForm_valid : validForm exampleForm.
Proof.
  exists 24%Z, 40%Z, 52000, 75, 4, 2. cbn.
  repeat split; try reflexivity; try lia.
Qed.

Lemma volatility_gate_witness :
  exists r,
    calculateRetirement noNoise 2026 exampleForm = SetResults r /\
    exists vehicle,
      nth_error investmentVehicles (FormState.selectedVehicle exampleForm)
      = Some vehicle /\
      (CalculationResults.monteCarloProjections r <> None
       <-> volatilityPositive vehicle) /\
      (CalculationResults.sequenceScenarios r <> None
       <-> volatilityPositive vehicle) /\
      (InvestmentVehicle.name vehicle = "Very Low Risk"%string
       \/ InvestmentVehicle.name vehicle = "Low Risk"%string ->
       CalculationResults.monteCarloProjections r = None /\
       CalculationResults.sequenceScenarios r = None).
Proof.
  destruct (calculateRetirement_valid noNoise 2026 exampleForm exampleForm_valid)
    as [r Hr].
  exists r. split; [exact Hr |].
  exact (volatility_gate noNoise 2026 exampleForm r Hr).
Defined.

Lemma deterministic_matches_projection_witness :
  (24 < 40)%Z /\ (16 <= years 24 40)%nat /\
  exists m p,
    nth_error (runMonteCarloSimulation noNoise 2026 (years 24 40)
                 (annualInvestment 24 40 52000 moderateRisk 0.75 0.04 0.02)
                 (InvestmentVehicle.returnRate moderateRisk) 15
                 (finalTargetCorpus 24 40 52000 moderateRisk 0.75 0.04 0.02)
                 24 0.02) 16 = Some m /\
    nth_error (yearlyProjections 2026 24 40 52000 moderateRisk 0.75 0.04 0.02) 16
    = Some p /\
    MonteCarloProjection.deterministic m = YearlyProjection.totalValue p.
Proof.
  split; [lia |]. split; [vm_compute; lia |].
  apply (deterministic_matches_projection noNoise 2026 24 40 52000 moderateRisk
           0.75 0.04 0.02 15 16); [lia | vm_compute; lia].
Defined.

(** A plan that runs dry early: one year to retirement at 60, the Very
    High Risk vehicle and a withdrawal rate of 20%.  The corpus is about
    5.3 years of income; the row of year 6 is 0, and so is the row of
    year 7. *)
Lemma depletion_absorbing_witness :
  let rows :=
    postRetirementProjections 2026 59 60 50000 veryHighRisk 0.75 0.2 0.02
      veryLowRisk in
  let unset := PostRetirementProjection.mk 0 0 0 0 in
  PostRetirementProjection.portfolioValue (nth 6 rows unset) == 0 /\
  PostRetirementProjection.portfolioValue (nth 7 rows unset) == 0.
Proof.
  intros rows unset.
  assert (Hlen : List.length rows = 41%nat)
    by apply postRetirementProjections_length.
  assert (H6 : nth_error rows 6 = Some (nth 6 rows unset))
    by (apply nth_error_nth'; rewrite Hlen; lia).
  assert (H7 : nth_error rows 7 = Some (nth 7 rows unset))
    by (apply nth_error_nth'; rewrite Hlen; lia).
  assert (Hzero : PostRetirementProjection.portfolioValue (nth 6 rows unset) == 0)
    by (vm_compute; reflexivity).
  split; [exact Hzero |].
  refine (depletion_absorbing 2026 59 60 50000 veryHighRisk 0.75 0.2 0.02
            veryLowRisk 6 7 _ _ _ _ _ H6 H7 Hzero).
  - reflexivity.
  - apply withdrawals_nonnegative. vm_compute. discriminate.
  - lia.
Defined.

(** * Further properties *)

(** ** The tax breakdown *)

(** The parts of [calculateUKTax], as functions of the taxable and of the
    gross income. *)
Lemma Qle_bool_false (a b : number) : Qle_bool a b = false <-> b < a.
Proof.
  split; intros H.
  - apply Qnot_le_lt. intros Hle. apply Qle_bool_iff in Hle. congruence.
  - destruct (Qle_bool a b) eqn:E; [| reflexivity].
    apply Qle_bool_iff in E. lra.
Qed.

Ltac bool_cases :=
  repeat match goal with
  | |- context [Qltb ?a ?b] =>
      let E := fresh "E" in
      destruct (Qltb a b) eqn:E;
      [apply Qltb_lt in E | apply Qltb_ge in E]
  | |- context [Qle_bool ?a ?b] =>
      let E := fresh "E" in
      destruct (Qle_bool a b) eqn:E;
      [apply Qle_bool_iff in E | apply Qle_bool_false in E]
  end.

Ltac max_fact a b :=
  let m := fresh "m" in
  let Hl := fresh "Hl" in
  let Hr := fresh "Hr" in
  let Hm := fresh "Hm" in
  pose proof (Q.le_max_l a b) as Hl;
  pose proof (Q.le_max_r a b) as Hr;
  assert (Hm : Qmax a b == a \/ Qmax a b == b)
    by (destruct (Q.max_spec a b) as [[_ ?] | [_ ?]]; [right | left]; assumption);
  set (m := Qmax a b) in *; clearbody m.

Ltac max_facts :=
  repeat match goal with
  | |- context [Qmax ?a ?b] => max_fact a b
  | H : context [Qmax ?a ?b] |- _ => max_fact a b
  end.

Ltac tax_arith :=
  unfold Qdiv in *; change (/ 2) with (1 # 2) in *;
  repeat match goal with H : _ \/ _ |- _ => destruct H end; lra.

Lemma calculateUKTax_example : calculateUKTax 52000 == 12790.60.
Proof. reflexivity. Qed.

(** X1.  Nothing is due on a gross income up to the personal allowance of
    12570, negative incomes included. *)
Theorem calculateUKTax_below_allowance (grossIncome : number) :
  grossIncome <= 12570 -> calculateUKTax grossIncome == 0.
Proof.
  intros Hg. unfold calculateUKTax, Math.max. cbv zeta.
  bool_cases; max_facts; tax_arith.
Qed.

Lemma calculateUKTax_below_allowance_witness :
  12570 <= 12570 /\ calculateUKTax 12570 == 0.
Proof.
  split; [apply Qle_refl |].
  apply (calculateUKTax_below_allowance 12570). apply Qle_refl.
Defined.

Lemma calculateUKTax_parts (grossIncome : number) :
  calculateUKTax grossIncome
  = incomeTaxOn (taxableIncomeOf grossIncome) + nationalInsuranceOn grossIncome.
Proof. reflexivity. Qed.

Lemma taxableIncomeOf_monotone (g1 g2 : number) :
  g1 <= g2 -> taxableIncomeOf g1 <= taxableIncomeOf g2.
Proof.
  intros Hg. unfold taxableIncomeOf, Math.max.
  bool_cases; max_facts; tax_arith.
Qed.

Lemma taxableIncomeOf_bounds (g : number) :
  0 <= taxableIncomeOf g /\ taxableIncomeOf g <= Qmax 0 g.
Proof.
  unfold taxableIncomeOf, Math.max.
  split; bool_cases; max_facts; tax_arith.
Qed.

Lemma incomeTaxOn_monotone (t1 t2 : number) :
  t1 <= t2 -> incomeTaxOn t1 <= incomeTaxOn t2.
Proof.
  intros Ht. unfold incomeTaxOn. bool_cases; lra.
Qed.

Lemma incomeTaxOn_bounds (t : number) :
  0 <= t -> 0 <= incomeTaxOn t /\ incomeTaxOn t <= 0.45 * t.
Proof.
  intros Ht. unfold incomeTaxOn. split; bool_cases; lra.
Qed.

Lemma nationalInsuranceOn_monotone (g1 g2 : number) :
  g1 <= g2 -> nationalInsuranceOn g1 <= nationalInsuranceOn g2.
Proof.
  intros Hg. unfold nationalInsuranceOn. bool_cases; lra.
Qed.

Lemma nationalInsuranceOn_bounds (g : number) :
  0 <= nationalInsuranceOn g /\ nationalInsuranceOn g <= 0.12 * Qmax 0 g.
Proof.
  unfold nationalInsuranceOn. split; bool_cases; max_facts; tax_arith.
Qed.

(** X2.  The tax never decreases when the gross income increases. *)
Theorem calculateUKTax_monotone (g1 g2 : number) :
  g1 <= g2 -> calculateUKTax g1 <= calculateUKTax g2.
Proof.
  intros Hg. rewrite !calculateUKTax_parts.
  apply Qplus_le_compat.
  - now apply incomeTaxOn_monotone, taxableIncomeOf_monotone.
  - now apply nationalInsuranceOn_monotone.
Qed.

Lemma calculateUKTax_monotone_witness :
  52000 <= 110000 /\ calculateUKTax 52000 <= calculateUKTax 110000.
Proof.
  assert (H : 52000 <= 110000) by (vm_compute; discriminate).
  split; [exact H | exact (calculateUKTax_monotone 52000 110000 H)].
Defined.


(** X3.  The tax is never negative and never more than 57% of a positive
    gross income, so that the income after tax is positive. *)
Theorem calculateUKTax_bounds (grossIncome : number) :
  0 <= calculateUKTax grossIncome /\
  calculateUKTax grossIncome <= 0.57 * Qmax 0 grossIncome.
Proof.
  rewrite calculateUKTax_parts.
  destruct (taxableIncomeOf_bounds grossIncome) as [Ht0 Ht1].
  destruct (incomeTaxOn_bounds _ Ht0) as [Hi0 Hi1].
  destruct (nationalInsuranceOn_bounds grossIncome) as [Hn0 Hn1].
  split; lra.
Qed.


(** ** The outcomes of [calculateRetirement] *)

Lemma nth_error_catalogue_None (n : nat) :
  nth_error investmentVehicles n = None <-> (List.length investmentVehicles <= n)%nat.
Proof. apply nth_error_None. Qed.

Ltac destruct_fields s :=
  unfold calculateRetirement, parsedFields;
  destruct (FormState.currentAge s) as [age |];
  destruct (FormState.retirementAge s) as [retAge |];
  destruct (FormState.currentIncome s) as [income |];
  destruct (FormState.retirementIncomePercent s) as [percent |];
  destruct (FormState.safeWithdrawalRate s) as [swr |];
  destruct (FormState.salaryGrowth s) as [growth |];
  cbn [option_map].

(** X5.  The input is rejected with an alert in exactly three cases, tested
    in this order: a field is not a number; the retirement age is not
    above the current age; the income is not positive. *)
Theorem calculateRetirement_alerts z thisYear s :
  (calculateRetirement z thisYear s
   = Alert "Please ensure all fields are filled with valid numbers"
   <-> parsedFields s = None) /\
  (calculateRetirement z thisYear s
   = Alert "Retirement age must be greater than current age"
   <-> exists age retAge income percent swr growth,
         parsedFields s = Some (age, retAge, income, percent, swr, growth) /\
         (retAge <= age)%Z) /\
  (calculateRetirement z thisYear s
   = Alert "Current income must be greater than zero"
   <-> exists age retAge income percent swr growth,
         parsedFields s = Some (age, retAge, income, percent, swr, growth) /\
         (age < retAge)%Z /\ income <= 0).
Proof.
  destruct_fields s;
    try (repeat split; intros H; try reflexivity; try discriminate H;
         destruct H as (? & ? & ? & ? & ? & ? & H & _); discriminate H).
  destruct (retAge <=? age)%Z eqn:Eage;
    [apply Z.leb_le in Eage | apply Z.leb_gt in Eage].
  - repeat split; intros H; try discriminate H.
    + exists age, retAge, income, percent, swr, growth. now split.
    + destruct H as (? & ? & ? & ? & ? & ? & H & Hlt & _).
      inversion H; subst. lia.
  - destruct (Qle_bool income 0) eqn:Eincome;
      [apply Qle_bool_iff in Eincome | apply Qle_bool_false in Eincome].
    + repeat split; intros H; try discriminate H.
      * destruct H as (? & ? & ? & ? & ? & ? & H & Hle).
        inversion H; subst. lia.
      * exists age, retAge, income, percent, swr, growth. now repeat split.
    + assert (Hno : forall msg,
                 match nth_error investmentVehicles (FormState.selectedVehicle s) with
                 | Some vehicle =>
                     match
                       (if FormState.useLowestRiskPostRetirement s
                        then nth_error investmentVehicles 0
                        else nth_error investmentVehicles
                               (FormState.postRetirementVehicle s))
                     with
                     | Some postRetVehicle =>
                         match
                           lastYearlyProjection thisYear age retAge income vehicle
                             (percent / 100) (swr / 100) (growth / 100)
                         with
                         | Some lastRow =>
                             SetResults
                               (results z thisYear age retAge income vehicle
                                  (percent / 100) (swr / 100) (growth / 100)
                                  postRetVehicle lastRow)
                         | None => TypeError
                         end
                     | None => TypeError
                     end
                 | None => TypeError
                 end <> Alert msg).
      { intros msg.
        destruct (nth_error investmentVehicles _); [| discriminate].
        destruct (if FormState.useLowestRiskPostRetirement s then _ else _);
          [| discriminate].
        destruct (lastYearlyProjection _ _ _ _ _ _ _ _); discriminate. }
      repeat split; intros H; try (now apply Hno in H); try discriminate H.
      * destruct H as (? & ? & ? & ? & ? & ? & H & Hle).
        inversion H; subst. lia.
      * destruct H as (? & ? & ? & ? & ? & ? & H & _ & Hle).
        inversion H; subst. lra.
Qed.

(** The five ways a call of [calculateRetirement] can end. *)
Lemma calculateRetirement_cases z thisYear s :
  (parsedFields s = None /\
   calculateRetirement z thisYear s
   = Alert "Please ensure all fields are filled with valid numbers")
  \/
  exists age retAge income percent swr growth,
    parsedFields s = Some (age, retAge, income, percent, swr, growth) /\
    (((retAge <= age)%Z /\
      calculateRetirement z thisYear s
      = Alert "Retirement age must be greater than current age")
     \/
     ((age < retAge)%Z /\ income <= 0 /\
      calculateRetirement z thisYear s
      = Alert "Current income must be greater than zero")
     \/
     ((age < retAge)%Z /\ 0 < income /\ ~ vehiclesSelected s /\
      calculateRetirement z thisYear s = TypeError)
     \/
     ((age < retAge)%Z /\ 0 < income /\ vehiclesSelected s /\
      exists r, calculateRetirement z thisYear s = SetResults r)).
Proof.
  destruct_fields s; try (left; split; reflexivity).
  right. exists age, retAge, income, percent, swr, growth.
  split; [reflexivity |].
  destruct (retAge <=? age)%Z eqn:Eage;
    [apply Z.leb_le in Eage | apply Z.leb_gt in Eage].
  { left. now split. }
  destruct (Qle_bool income 0) eqn:Eincome;
    [apply Qle_bool_iff in Eincome | apply Qle_bool_false in Eincome].
  { right. left. now repeat split. }
  right. right. unfold vehiclesSelected.
  destruct (nth_error investmentVehicles (FormState.selectedVehicle s))
    as [vehicle |] eqn:Ev.
  - assert (Hsel : (FormState.selectedVehicle s < List.length investmentVehicles)%nat)
      by (apply nth_error_Some; congruence).
    destruct (FormState.useLowestRiskPostRetirement s) eqn:Elow.
    + cbn [nth_error investmentVehicles].
      destruct (lastYearlyProjection_defined thisYear age retAge income vehicle
                  (percent / 100) (swr / 100) (growth / 100) Eage) as [lastRow ->].
      right. repeat split; try assumption; [now left | eexists; reflexivity].
    + destruct (nth_error investmentVehicles (FormState.postRetirementVehicle s))
        as [postRetVehicle |] eqn:Ep.
      * destruct (lastYearlyProjection_defined thisYear age retAge income vehicle
                    (percent / 100) (swr / 100) (growth / 100) Eage) as [lastRow ->].
        right. repeat split; try assumption; [| eexists; reflexivity].
        right. apply nth_error_Some. congruence.
      * left. repeat split; try assumption.
        apply nth_error_None in Ep. intros [_ [H | H]]; [discriminate H | lia].
  - left. repeat split; try assumption.
    apply nth_error_None in Ev. intros [H _]. lia.
Qed.

Lemma validForm_parsed (s : FormState.t) :
  validForm s <->
  exists age retAge income percent swr growth,
    parsedFields s = Some (age, retAge, income, percent, swr, growth) /\
    (age < retAge)%Z /\ 0 < income /\ vehiclesSelected s.
Proof.
  unfold validForm, vehiclesSelected, parsedFields. split.
  - intros (age & retAge & income & percent & swr & growth
            & -> & -> & -> & -> & -> & -> & Hage & Hincome & Hsel & Hpost).
    exists age, retAge, income, percent, swr, growth. now repeat split.
  - intros (age & retAge & income & percent & swr & growth & Hf & Hage & Hincome
            & Hsel & Hpost).
    destruct (FormState.currentAge s); [| discriminate Hf].
    destruct (FormState.retirementAge s); [| discriminate Hf].
    destruct (FormState.currentIncome s); [| discriminate Hf].
    destruct (FormState.retirementIncomePercent s); [| discriminate Hf].
    destruct (FormState.safeWithdrawalRate s); [| discriminate Hf].
    destruct (FormState.salaryGrowth s); [| discriminate Hf].
    inversion Hf; subst.
    exists age, retAge, income, percent, swr, growth. now repeat split.
Qed.

(** X6.  A result is stored if and only if the input is valid: every field
    is a number, the retirement age is above the current age, the income is
    positive and both selected vehicles are in the catalogue. *)
Theorem calculateRetirement_stores_iff_valid z thisYear s :
  (exists r, calculateRetirement z thisYear s = SetResults r) <-> validForm s.
Proof.
  rewrite validForm_parsed. split.
  - intros [r Hr].
    destruct (calculateRetirement_cases z thisYear s)
      as [[_ H] | (age & retAge & income & percent & swr & growth & Hf
                   & [[_ H] | [(_ & _ & H) | [(_ & _ & _ & H) | (Ha & Hi & Hv & _)]]])];
      try congruence.
    exists age, retAge, income, percent, swr, growth.
    split; [exact Hf | split; [exact Ha | split; [exact Hi | exact Hv]]].
  - intros (age & retAge & income & percent & swr & growth & Hf & Hage & Hincome & Hv).
    destruct (calculateRetirement_cases z thisYear s)
      as [[Hn _] | (age' & retAge' & income' & percent' & swr' & growth' & Hf'
                    & [[Ha _] | [(_ & Hi & _) | [(_ & _ & Hnv & _) | (_ & _ & _ & H)]]])];
      try congruence; try contradiction;
      rewrite Hf in Hf'; inversion Hf'; subst; try lia; try lra; assumption.
Qed.

(** X7.  The call throws, on reading a field of an undefined vehicle, if
    and only if the input passes the three validation tests and one of the
    selected vehicles is not in the catalogue; an invalid number is always
    reported by an alert first. *)
Theorem calculateRetirement_throws_iff z thisYear s :
  calculateRetirement z thisYear s = TypeError <->
  exists age retAge income percent swr growth,
    parsedFields s = Some (age, retAge, income, percent, swr, growth) /\
    (age < retAge)%Z /\ 0 < income /\ ~ vehiclesSelected s.
Proof.
  split.
  - intros Hr.
    destruct (calculateRetirement_cases z thisYear s)
      as [[_ H] | (age & retAge & income & percent & swr & growth & Hf
                   & [[_ H] | [(_ & _ & H) | [(Ha & Hi & Hv & _) | (_ & _ & _ & r & H)]]])];
      try congruence.
    exists age, retAge, income, percent, swr, growth.
    split; [exact Hf | split; [exact Ha | split; [exact Hi | exact Hv]]].
  - intros (age & retAge & income & percent & swr & growth & Hf & Hage & Hincome & Hv).
    destruct (calculateRetirement_cases z thisYear s)
      as [[Hn _] | (age' & retAge' & income' & percent' & swr' & growth' & Hf'
                    & [[Ha _] | [(_ & Hi & _) | [(_ & _ & _ & H) | (_ & _ & Hv' & _)]]])];
      try congruence; try contradiction;
      rewrite Hf in Hf'; inversion Hf'; subst; try lia; try lra.
Qed.

(** ** The dynamics of the contribution solver *)

Lemma accumulation_linear (a growth rate : number) (n : nat) :
  accumulation a growth rate n == a * accumulation 1 growth rate n.
Proof.
  induction n as [| n IH].
  - simpl. ring.
  - cbn [accumulation]. rewrite IH. unfold contribution. ring.
Qed.

Lemma Qpower_succ_nat (q : number) (k : nat) :
  q ^ Z.of_nat (S k) == q * q ^ Z.of_nat k.
Proof.
  rewrite Nat2Z.inj_succ, <- Z.add_1_l.
  rewrite Qpower_plus' by lia. reflexivity.
Qed.

Section SolverDynamics.
Variables age retAge : Z.
Variable income : number.
Variable vehicle : InvestmentVehicle.t.
Variables replacementRatio withdrawalRate annualSalaryGrowth : number.

Let difference : number -> number :=
  solverDifference age retAge income vehicle replacementRatio withdrawalRate
    annualSalaryGrowth.
Let factor : number := solverFactor age retAge vehicle annualSalaryGrowth.
Let unit : number := unitAccumulation age retAge vehicle annualSalaryGrowth.

Lemma testAccumulation_linear (testAnnualInvestment : number) :
  fst (testAccumulation age retAge vehicle annualSalaryGrowth testAnnualInvestment)
  == testAnnualInvestment * unit.
Proof.
  unfold unit, unitAccumulation. rewrite !testAccumulation_formula.
  apply accumulation_linear.
Qed.

(** One turn of the solver multiplies the difference by [solverFactor]. *)
Lemma solverDifference_step (guess : number) :
  difference (guess + difference guess / inject_Z (yearsUntilRetirement age retAge) / 10)
  == difference guess * factor.
Proof.
  unfold difference, solverDifference, factor, solverFactor. fold unit.
  rewrite (testAccumulation_linear (guess + _)).
  rewrite (testAccumulation_linear guess).
  unfold Qdiv. ring.
Qed.

Lemma solverLoop_dynamics (fuel : nat) :
  forall guess iterations,
    let out :=
      solverLoop age retAge income vehicle replacementRatio withdrawalRate
        annualSalaryGrowth fuel guess iterations in
    exists k,
      snd out = (iterations + k)%nat /\ (k <= fuel)%nat /\
      difference (fst out) == difference guess * factor ^ Z.of_nat k /\
      ((k < fuel)%nat -> Math.abs (difference (fst out)) < 1000).
Proof.
  induction fuel as [| fuel IH]; intros guess iterations; cbn zeta.
  - exists 0%nat. cbn [solverLoop fst snd].
    repeat split; try lia. change (Z.of_nat 0) with 0%Z. cbn [Qpower].
    symmetry. apply Qmult_1_r.
  - cbn [solverLoop].
    change (finalTargetCorpus age retAge income vehicle replacementRatio
              withdrawalRate annualSalaryGrowth
            - fst (testAccumulation age retAge vehicle annualSalaryGrowth guess))
      with (difference guess).
    destruct (Qltb (Math.abs (difference guess)) 1000) eqn:E.
    + exists 0%nat. cbn [fst snd]. apply Qltb_lt in E.
      repeat split; try lia; [| intros _; exact E].
      change (Z.of_nat 0) with 0%Z. cbn [Qpower]. symmetry. apply Qmult_1_r.
    + destruct (IH (guess + difference guess
                              / inject_Z (yearsUntilRetirement age retAge) / 10)
                   (S iterations)) as (k & Hk & Hle & Hd & Hstop).
      exists (S k). repeat split; try lia.
      * rewrite Hd, solverDifference_step, Qpower_succ_nat.
        symmetry. apply Qmult_assoc.
      * intros Hlt. apply Hstop. lia.
Qed.

(** X8.  The total that the solver simulates is proportional to the
    candidate contribution: it is the contribution times the total that a
    contribution of 1 accumulates to. *)
Theorem testAccumulation_proportional (testAnnualInvestment : number) :
  fst (testAccumulation age retAge vehicle annualSalaryGrowth testAnnualInvestment)
  == testAnnualInvestment
     * fst (testAccumulation age retAge vehicle annualSalaryGrowth 1).
Proof. apply testAccumulation_linear. Qed.


(** A sufficient condition for the solver to meet its tolerance. *)
Lemma solver_converges_aux :
  let invest :=
    annualInvestment age retAge income vehicle replacementRatio withdrawalRate
      annualSalaryGrowth in
  let guess :=
    finalTargetCorpus age retAge income vehicle replacementRatio withdrawalRate
      annualSalaryGrowth / inject_Z (yearsUntilRetirement age retAge) / 1.5 in
  Math.abs (difference guess * Math.pow factor 100) < 1000 ->
  Math.abs (difference invest) < 1000.
Proof.
  cbn zeta. intros Hsmall.
  unfold annualInvestment, iterations, solver.
  destruct (solverLoop_dynamics maxIterations
              (finalTargetCorpus age retAge income vehicle replacementRatio
                 withdrawalRate annualSalaryGrowth
               / inject_Z (yearsUntilRetirement age retAge) / 1.5) 0%nat)
    as (k & Hk & Hle & Hd & Hstop).
  cbn zeta in Hk, Hd, Hstop. unfold maxIterations in *.
  destruct (Nat.eq_dec k 100) as [-> | Hne].
  - unfold Math.abs in *. rewrite Hd. exact Hsmall.
  - apply Hstop. lia.
Qed.

End SolverDynamics.

(** X10.  The solver meets its tolerance of 1000 whenever the initial
    difference, multiplied by the hundredth power of the factor of one
    turn, is below 1000 in absolute value. *)
Theorem solver_converges_when age retAge income vehicle ratio rate growth :
  Math.abs
    (solverDifference age retAge income vehicle ratio rate growth
       (finalTargetCorpus age retAge income vehicle ratio rate growth
        / inject_Z (yearsUntilRetirement age retAge) / 1.5)
     * Math.pow (solverFactor age retAge vehicle growth) 100) < 1000 ->
  Math.abs
    (solverDifference age retAge income vehicle ratio rate growth
       (annualInvestment age retAge income vehicle ratio rate growth)) < 1000.
Proof. apply solver_converges_aux. Qed.

Lemma solver_converges_when_witness :
  Math.abs
    (solverDifference 39 40 52000 veryLowRisk 0.75 0.04 0.02
       (annualInvestment 39 40 52000 veryLowRisk 0.75 0.04 0.02)) < 1000.
Proof.
  apply (solver_converges_when 39 40 52000 veryLowRisk 0.75 0.04 0.02).
  vm_compute. reflexivity.
Defined.

(** ** The return sequences: shape *)

(** Whatever its type, a sequence is the map of one of four year
    functions; a type that is none of the three known names gives the flat
    sequence. *)
Lemma generateSequence_cases (type : string) (years : nat) (baseReturn vol : number) :
  exists f,
    generateSequence type years baseReturn vol = map f (seq 0 years) /\
    (f = bestCaseReturn years baseReturn vol \/
     f = worstCaseReturn years baseReturn vol \/
     f = earlyBearReturn years baseReturn vol \/
     f = (fun _ => baseReturn / 100)).
Proof.
  destruct (String.eqb type "bestCase") eqn:E1.
  { apply String.eqb_eq in E1. subst type. eexists. split;
      [apply generateSequence_bestCase | now left]. }
  destruct (String.eqb type "worstCase") eqn:E2.
  { apply String.eqb_eq in E2. subst type. eexists. split;
      [apply generateSequence_worstCase | now right; left]. }
  destruct (String.eqb type "earlyBear") eqn:E3.
  { apply String.eqb_eq in E3. subst type. eexists. split;
      [apply generateSequence_earlyBear | now right; right; left]. }
  exists (fun _ => baseReturn / 100). split; [| now right; right; right].
  unfold generateSequence. rewrite E1, E2, E3.
  now rewrite (forLoop_push (fun _ => baseReturn / 100)).
Qed.

Lemma progress_bounds (i years : nat) :
  (i < years)%nat -> 0 <= ofNat i / ofNat years /\ ofNat i / ofNat years < 1.
Proof.
  intros Hi.
  assert (Hn : 0 < ofNat years).
  { apply (ofNat_lt 0 years). lia. }
  assert (Hi0 : 0 <= ofNat i).
  { unfold ofNat. change 0 with (inject_Z 0). rewrite <- Zle_Qle. lia. }
  apply ofNat_lt in Hi. split.
  - apply Qle_shift_div_l; [exact Hn | lra].
  - apply Qlt_shift_div_r; [exact Hn | lra].
Qed.

Lemma div_100 (x : number) : x / 100 == x * (1 # 100).
Proof. reflexivity. Qed.

(** X11.  Whatever the type, every return of a generated sequence is
    within [vol / 100] of the nominal return [baseReturn / 100]. *)
Theorem generateSequence_within_volatility
    (type : string) (years : nat) (baseReturn vol : number) (i : nat) :
  (i < years)%nat ->
  Math.abs (idx (generateSequence type years baseReturn vol) i - baseReturn / 100)
  <= Math.abs vol / 100.
Proof.
  intros Hi. unfold Math.abs.
  destruct (generateSequence_cases type years baseReturn vol) as [f [-> Hf]].
  rewrite idx_map_seq by exact Hi.
  destruct (progress_bounds i years Hi) as [Hp0 Hp1].
  apply Qabs_Qle_condition.
  destruct Hf as [-> | [-> | [-> | ->]]].
  - unfold bestCaseReturn. set (p := ofNat i / ofNat years) in *. clearbody p.
    rewrite !div_100. apply (Qabs_case vol); intros Hv; split; nra.
  - unfold worstCaseReturn. set (p := ofNat i / ofNat years) in *. clearbody p.
    rewrite !div_100. apply (Qabs_case vol); intros Hv; split; nra.
  - unfold earlyBearReturn. destruct (Qltb _ _);
      rewrite !div_100; apply (Qabs_case vol); intros Hv; split; lra.
  - rewrite !div_100. apply (Qabs_case vol); intros Hv; split; lra.
Qed.

Lemma generateSequence_within_volatility_witness :
  (3 < 16)%nat /\
  Math.abs (idx (generateSequence "bestCase" 16 12 15) 3 - 12 / 100)
  <= Math.abs 15 / 100.
Proof.
  split; [lia |].
  apply (generateSequence_within_volatility "bestCase" 16 12 15 3). lia.
Defined.

(** X12.  The worst case is the mirror image of the best case about the
    nominal return: in every year the two returns add up to twice
    [baseReturn / 100]. *)
Theorem bestCase_worstCase_mirror (years : nat) (baseReturn vol : number) (i : nat) :
  (i < years)%nat ->
  idx (generateSequence "bestCase" years baseReturn vol) i
  + idx (generateSequence "worstCase" years baseReturn vol) i
  == 2 * (baseReturn / 100).
Proof.
  intros Hi.
  rewrite generateSequence_bestCase, generateSequence_worstCase.
  rewrite !idx_map_seq by exact Hi.
  unfold bestCaseReturn, worstCaseReturn.
  set (p := ofNat i / ofNat years). clearbody p.
  rewrite !div_100. ring.
Qed.

Lemma bestCase_worstCase_mirror_witness :
  (3 < 16)%nat /\
  idx (generateSequence "bestCase" 16 12 15) 3
  + idx (generateSequence "worstCase" 16 12 15) 3 == 2 * (12 / 100).
Proof.
  split; [lia |]. apply (bestCase_worstCase_mirror 16 12 15 3). lia.
Defined.

(** X13.  With a volatility that is not negative the best case never
    falls and the worst case never rises from one year to a later one;
    the best case starts at [(baseReturn - vol) / 100]. *)
Theorem bestCase_rises_worstCase_falls
    (years : nat) (baseReturn vol : number) (i j : nat) :
  0 <= vol ->
  (i <= j < years)%nat ->
  idx (generateSequence "bestCase" years baseReturn vol) i
  <= idx (generateSequence "bestCase" years baseReturn vol) j /\
  idx (generateSequence "worstCase" years baseReturn vol) j
  <= idx (generateSequence "worstCase" years baseReturn vol) i /\
  idx (generateSequence "bestCase" years baseReturn vol) 0
  == (baseReturn - vol) / 100.
Proof.
  intros Hv [Hij Hj].
  rewrite generateSequence_bestCase, generateSequence_worstCase.
  rewrite !idx_map_seq by lia.
  unfold bestCaseReturn, worstCaseReturn.
  assert (Hn : 0 < ofNat years) by (apply (ofNat_lt 0 years); lia).
  assert (Hp : ofNat i / ofNat years <= ofNat j / ofNat years).
  { apply Qmult_le_compat_r.
    - unfold ofNat. rewrite <- Zle_Qle. lia.
    - apply Qlt_le_weak, Qinv_lt_0_compat, Hn. }
  set (p := ofNat i / ofNat years) in *. set (q := ofNat j / ofNat years) in *.
  assert (H0 : ofNat 0 / ofNat years == 0).
  { change (ofNat 0) with 0. unfold Qdiv. ring. }
  clearbody p q. rewrite H0, !div_100. split; [nra | split; [nra | ring]].
Qed.

Lemma bestCase_rises_worstCase_falls_witness :
  idx (generateSequence "bestCase" 16 12 15) 3
  <= idx (generateSequence "bestCase" 16 12 15) 9 /\
  idx (generateSequence "worstCase" 16 12 15) 9
  <= idx (generateSequence "worstCase" 16 12 15) 3 /\
  idx (generateSequence "bestCase" 16 12 15) 0 == (12 - 15) / 100.
Proof.
  apply (bestCase_rises_worstCase_falls 16 12 15 3 9);
    [vm_compute; discriminate | lia].
Defined.

(** ** The full-cycle simulation: trajectories *)

Section SequenceTrajectories.
Variable thisYear : Z.
Variable yearsUntilRetirement : nat.
Variables annualInvestment preRetirementReturn volatility : number.
Variable retirementDuration : nat.
Variables annualRetirementIncome inflationRate salaryGrowthRate : number.
Variable postRetirementReturn : number.
Variable currentAge : Z.

Let cycle (preReturns postReturns : list number) : FullCycle.t :=
  simulateFullCycle yearsUntilRetirement annualInvestment retirementDuration
    annualRetirementIncome inflationRate salaryGrowthRate preReturns postReturns.

Lemma accumulationLoop_length (preReturns : list number) (n : nat)
    (st : list number * number) :
  List.length
    (fst (forLoop 0 n (accumulationStep annualInvestment salaryGrowthRate preReturns) st))
  = (List.length (fst st) + n)%nat.
Proof.
  induction n as [| n IH].
  - rewrite forLoop_0. lia.
  - rewrite forLoop_S.
    destruct (forLoop 0 n _ st) as [allValues portfolioValue].
    cbn [fst] in IH |- *. unfold accumulationStep. cbn [fst].
    rewrite length_app, IH. simpl. lia.
Qed.

(** The recorded trajectory has one value for "now", one for each year to
    retirement and one for each year of retirement. *)
Lemma simulateFullCycle_values_length (preReturns postReturns : list number) :
  List.length (FullCycle.values (cycle preReturns postReturns))
  = (yearsUntilRetirement + retirementDuration + 1)%nat.
Proof.
  unfold cycle.
  destruct (simulateFullCycle_state yearsUntilRetirement annualInvestment
              retirementDuration annualRetirementIncome inflationRate
              salaryGrowthRate preReturns postReturns) as [_ [-> _]].
  rewrite retirementState_values, length_app, length_map, length_seq.
  rewrite accumulationLoop_length. simpl. lia.
Qed.



Lemma projections_rows :
  projections thisYear yearsUntilRetirement annualInvestment preRetirementReturn
    volatility retirementDuration annualRetirementIncome inflationRate
    salaryGrowthRate postRetirementReturn currentAge
  = map (fun i =>
           SequenceProjection.mk (thisYear + Z.of_nat i)%Z (currentAge + Z.of_nat i)%Z
             (Nat.eqb i yearsUntilRetirement)
             ((Z.of_nat yearsUntilRetirement - 5 <=? Z.of_nat i)%Z
              && Nat.ltb i yearsUntilRetirement)
             (idx (FullCycle.values
                     (bestCaseResult yearsUntilRetirement annualInvestment
                        preRetirementReturn volatility retirementDuration
                        annualRetirementIncome inflationRate salaryGrowthRate
                        postRetirementReturn)) i)
             (idx (FullCycle.values
                     (worstCaseResult yearsUntilRetirement annualInvestment
                        preRetirementReturn volatility retirementDuration
                        annualRetirementIncome inflationRate salaryGrowthRate
                        postRetirementReturn)) i)
             (idx (FullCycle.values
                     (earlyBearResult yearsUntilRetirement annualInvestment
                        preRetirementReturn volatility retirementDuration
                        annualRetirementIncome inflationRate salaryGrowthRate
                        postRetirementReturn)) i)
             (idx (FullCycle.values
                     (averageResult yearsUntilRetirement annualInvestment
                        preRetirementReturn volatility retirementDuration
                        annualRetirementIncome inflationRate salaryGrowthRate
                        postRetirementReturn)) i))
        (seq 0 (yearsUntilRetirement + retirementDuration + 1)).
Proof.
  unfold projections. cbv zeta.
  now rewrite (forLoop_push _ _ (fun _ _ => eq_refl)).
Qed.

End SequenceTrajectories.

(** ** The sequence projections and their chart *)

Lemma findIndexFrom_map_seq {A : Type} (test : A -> bool) (f : nat -> A) (k : nat) :
  forall n a j,
    (forall i, (a <= i < a + n)%nat -> test (f i) = Nat.eqb i k) ->
    (a <= k < a + n)%nat ->
    findIndexFrom test (map f (seq a n)) j = (j + Z.of_nat (k - a))%Z.
Proof.
  induction n as [| n IH]; intros a j Htest Hk; [lia |].
  cbn [seq map findIndexFrom]. rewrite (Htest a) by lia.
  destruct (Nat.eqb a k) eqn:E.
  - apply Nat.eqb_eq in E. subst. rewrite Nat.sub_diag. cbn. lia.
  - apply Nat.eqb_neq in E. rewrite (IH (S a) (j + 1)%Z).
    + lia.
    + intros i Hi. apply Htest. lia.
    + lia.
Qed.

Section SequenceChart.
Variable thisYear : Z.
Variable yearsUntilRetirement : nat.
Variables annualInvestment preRetirementReturn volatility : number.
Variable retirementDuration : nat.
Variables annualRetirementIncome inflationRate salaryGrowthRate : number.
Variable postRetirementReturn : number.
Variable currentAge : Z.

Let risk : list SequenceScenario.t * list SequenceProjection.t :=
  calculateSequenceRisk thisYear yearsUntilRetirement annualInvestment
    preRetirementReturn volatility retirementDuration annualRetirementIncome
    inflationRate salaryGrowthRate postRetirementReturn currentAge.

Lemma sequenceProjections_nth (i : nat) (p : SequenceProjection.t) :
  nth_error (snd risk) i = Some p ->
  (i < yearsUntilRetirement + retirementDuration + 1)%nat /\
  SequenceProjection.year p = (thisYear + Z.of_nat i)%Z /\
  SequenceProjection.age p = (currentAge + Z.of_nat i)%Z /\
  SequenceProjection.isRetirementYear p = Nat.eqb i yearsUntilRetirement /\
  SequenceProjection.isCriticalZone p
  = ((Z.of_nat yearsUntilRetirement - 5 <=? Z.of_nat i)%Z
     && Nat.ltb i yearsUntilRetirement) /\
  SequenceProjection.average p
  = idx (FullCycle.values
           (averageResult yearsUntilRetirement annualInvestment preRetirementReturn
              volatility retirementDuration annualRetirementIncome inflationRate
              salaryGrowthRate postRetirementReturn)) i.
Proof.
  unfold risk, calculateSequenceRisk. cbn [snd]. rewrite projections_rows.
  intros Hp.
  assert (Hi : (i < yearsUntilRetirement + retirementDuration + 1)%nat).
  { destruct (Nat.lt_ge_cases i (yearsUntilRetirement + retirementDuration + 1))
      as [Hlt | Hge]; [exact Hlt | exfalso].
    rewrite (proj2 (nth_error_None _ _)) in Hp; [discriminate Hp |].
    now rewrite length_map, length_seq. }
  rewrite nth_error_map_seq in Hp by exact Hi.
  inversion Hp; subst p.
  cbn [SequenceProjection.year SequenceProjection.age
       SequenceProjection.isRetirementYear SequenceProjection.isCriticalZone
       SequenceProjection.average].
  split; [exact Hi |]. repeat split.
Qed.

Lemma retirement_year_index_aux :
  List.length (snd risk) = (yearsUntilRetirement + retirementDuration + 1)%nat /\
  findIndex SequenceProjection.isRetirementYear (snd risk)
  = Z.of_nat yearsUntilRetirement.
Proof.
  split.
  - unfold risk, calculateSequenceRisk. cbn [snd].
    now rewrite projections_rows, length_map, length_seq.
  - unfold risk, calculateSequenceRisk, findIndex. cbn [snd].
    rewrite projections_rows.
    rewrite (findIndexFrom_map_seq _ _ yearsUntilRetirement); [lia | | lia].
    intros i _. reflexivity.
Qed.

(** X14.  The sequence projections have one row for each year of the
    whole timeline; the row found by [findIndex] on the retirement-year
    flag is the row of index [yearsUntilRetirement], the only one with the
    flag, and the critical zone is made of the rows of the last five years
    before it. *)
Theorem retirement_year_index :
  List.length (snd risk) = (yearsUntilRetirement + retirementDuration + 1)%nat /\
  findIndex SequenceProjection.isRetirementYear (snd risk)
  = Z.of_nat yearsUntilRetirement /\
  forall i p,
    nth_error (snd risk) i = Some p ->
    (SequenceProjection.isRetirementYear p = true <-> i = yearsUntilRetirement) /\
    (SequenceProjection.isCriticalZone p = true
     <-> (yearsUntilRetirement <= i + 5 /\ i < yearsUntilRetirement)%nat).
Proof.
  destruct retirement_year_index_aux as [Hlen Hidx].
  split; [exact Hlen | split; [exact Hidx |]].
  intros i p Hp. apply sequenceProjections_nth in Hp.
  destruct Hp as (_ & _ & _ & -> & -> & _). split.
  - apply Nat.eqb_eq.
  - rewrite andb_true_iff, Z.leb_le, Nat.ltb_lt. lia.
Qed.

Let chartRow (i : nat) : ReturnSequenceRow.t :=
  let isPreRetirement := (Z.of_nat i <? Z.of_nat yearsUntilRetirement)%Z in
  ReturnSequenceRow.mk (thisYear + Z.of_nat i)%Z (currentAge + Z.of_nat i)%Z
    (if isPreRetirement then "Accumulation" else "Retirement")
    ((Z.of_nat yearsUntilRetirement - 5 <=? Z.of_nat i)%Z
     && Nat.ltb i yearsUntilRetirement)
    (Some ((if isPreRetirement
            then bestCaseReturn yearsUntilRetirement preRetirementReturn volatility i
            else postRetirementReturn / 100) * 100))
    (Some ((if isPreRetirement
            then worstCaseReturn yearsUntilRetirement preRetirementReturn volatility i
            else postRetirementReturn / 100) * 100))
    (Some ((if isPreRetirement
            then preRetirementReturn / 100
            else postRetirementReturn / 100) * 100)).

Lemma postRetSteady_nth (j : nat) :
  (j < retirementDuration)%nat ->
  nth_error (postRetSteady retirementDuration postRetirementReturn) j
  = Some (postRetirementReturn / 100).
Proof.
  intros Hj. unfold postRetSteady.
  rewrite generateSequence_average. now rewrite nth_error_map_seq.
Qed.

Lemma createReturnSequenceData_rows :
  createReturnSequenceData (fst risk) (snd risk) retirementDuration
  = Some (map chartRow (seq 0 (yearsUntilRetirement + Nat.min 10 retirementDuration))).
Proof.
  unfold createReturnSequenceData.
  destruct retirement_year_index_aux as [Hlen Hidx].
  rewrite Hidx.
  replace (Z.to_nat (Z.of_nat yearsUntilRetirement
                     + Z.min 10 (Z.of_nat retirementDuration)))
    with (yearsUntilRetirement + Nat.min 10 retirementDuration)%nat by lia.
  match goal with
  | |- forLoop 0 _ ?body _ = _ =>
      assert (Hloop : forall n,
                 (n <= yearsUntilRetirement + Nat.min 10 retirementDuration)%nat ->
                 forLoop 0 n body (Some []) = Some (map chartRow (seq 0 n)))
  end.
  2: { apply Hloop. lia. }
  intros n. induction n as [| n IH]; intros Hn; [reflexivity |].
  rewrite forLoop_S, IH by lia. cbn [Nat.add].
  destruct (nth_error (snd risk) n) as [proj |] eqn:Eproj.
  2: { apply nth_error_None in Eproj. lia. }
  apply sequenceProjections_nth in Eproj.
  destruct Eproj as (_ & Hyear & Hage & _ & Hzone & _).
  unfold risk, calculateSequenceRisk, scenarios.
  cbn [fst nth_error SequenceScenario.preRetirement SequenceScenario.postRetirement].
  rewrite (seq_S n 0), map_app. cbn [map Nat.add].
  rewrite Hyear, Hage, Hzone.
  destruct (Z.of_nat n <? Z.of_nat yearsUntilRetirement)%Z eqn:Epre.
  - assert (Hrow : chartRow n
                   = ReturnSequenceRow.mk (thisYear + Z.of_nat n)%Z
                       (currentAge + Z.of_nat n)%Z "Accumulation"
                       ((Z.of_nat yearsUntilRetirement - 5 <=? Z.of_nat n)%Z
                        && Nat.ltb n yearsUntilRetirement)
                       (Some (bestCaseReturn yearsUntilRetirement
                                preRetirementReturn volatility n * 100))
                       (Some (worstCaseReturn yearsUntilRetirement
                                preRetirementReturn volatility n * 100))
                       (Some (preRetirementReturn / 100 * 100))).
    { unfold chartRow. cbv zeta. now rewrite Epre. }
    rewrite Hrow. apply Z.ltb_lt in Epre.
    unfold percentAt, preRetBestCase, preRetWorstCase, preRetAverage.
    rewrite generateSequence_bestCase, generateSequence_worstCase,
      generateSequence_average.
    rewrite !nth_error_map_seq by lia. reflexivity.
  - assert (Hrow : chartRow n
                   = ReturnSequenceRow.mk (thisYear + Z.of_nat n)%Z
                       (currentAge + Z.of_nat n)%Z "Retirement"
                       ((Z.of_nat yearsUntilRetirement - 5 <=? Z.of_nat n)%Z
                        && Nat.ltb n yearsUntilRetirement)
                       (Some (postRetirementReturn / 100 * 100))
                       (Some (postRetirementReturn / 100 * 100))
                       (Some (postRetirementReturn / 100 * 100))).
    { unfold chartRow. cbv zeta. now rewrite Epre. }
    rewrite Hrow. apply Z.ltb_ge in Epre.
    unfold percentAt.
    rewrite !postRetSteady_nth by lia. reflexivity.
Qed.

(** X15.  On the scenarios and projections of [calculateSequenceRisk] the
    chart data is built without reading an undefined scenario or
    projection and without any NaN: it has one row for each year to
    retirement and for the first [min 10 retirementDuration] years of
    retirement; rows before the retirement year are in the accumulation
    phase and show the nominal pre-retirement return as average return;
    the others show the post-retirement return for all three scenarios. *)
Theorem createReturnSequenceData_defined :
  exists data,
    createReturnSequenceData (fst risk) (snd risk) retirementDuration = Some data /\
    List.length data = (yearsUntilRetirement + Nat.min 10 retirementDuration)%nat /\
    forall i row,
      nth_error data i = Some row ->
      (ReturnSequenceRow.phase row = "Accumulation"%string
       <-> (i < yearsUntilRetirement)%nat) /\
      exists bull bear avg,
        ReturnSequenceRow.bullReturns row = Some bull /\
        ReturnSequenceRow.bearReturns row = Some bear /\
        ReturnSequenceRow.avgReturns row = Some avg /\
        ((i < yearsUntilRetirement)%nat -> avg == preRetirementReturn) /\
        ((yearsUntilRetirement <= i)%nat ->
         avg == postRetirementReturn /\ bull == postRetirementReturn
         /\ bear == postRetirementReturn).
Proof.
  eexists. split; [apply createReturnSequenceData_rows |].
  split; [now rewrite length_map, length_seq |].
  intros i row Hrow.
  assert (Hi : (i < yearsUntilRetirement + Nat.min 10 retirementDuration)%nat).
  { destruct (Nat.lt_ge_cases i (yearsUntilRetirement + Nat.min 10 retirementDuration))
      as [Hlt | Hge]; [exact Hlt | exfalso].
    rewrite (proj2 (nth_error_None _ _)) in Hrow; [discriminate Hrow |].
    now rewrite length_map, length_seq. }
  rewrite nth_error_map_seq in Hrow by exact Hi.
  inversion Hrow; subst row. unfold chartRow. cbv zeta.
  cbn [ReturnSequenceRow.phase ReturnSequenceRow.bullReturns
       ReturnSequenceRow.bearReturns ReturnSequenceRow.avgReturns].
  destruct (Z.of_nat i <? Z.of_nat yearsUntilRetirement)%Z eqn:Epre;
    [apply Z.ltb_lt in Epre | apply Z.ltb_ge in Epre].
  - split; [split; [lia | reflexivity] |].
    do 3 eexists. repeat split; try reflexivity; try lia.
    intros _. field.
  - split; [split; [discriminate | lia] |].
    do 3 eexists. split; [reflexivity |]. split; [reflexivity |].
    split; [reflexivity |]. split; [lia |].
    intros _. repeat split; field.
Qed.

End SequenceChart.



(** ** The Monte Carlo reduction: what a percentile is *)




Ltac sort_lia l :=
  pose proof (Permutation_length (NumberSort.Permuted_sort l));
  unfold NumberOrder.t, number in *; lia.


Lemma sort_idx_In (l : list number) (k : nat) :
  (k < List.length l)%nat -> In (idx (NumberSort.sort l) k) l.
Proof.
  intros Hk.
  apply (Permutation_in _ (Permutation_sym (NumberSort.Permuted_sort l))).
  apply nth_In. sort_lia l.
Qed.

Section MonteCarloSamples.
Variable z : nat -> number.
Variable thisYear : Z.
Variable yearsUntilRetirement : nat.
Variables annualInvestment expectedReturn volatility targetCorpus : number.
Variable currentAge : Z.
Variable salaryGrowthRate : number.

Let rows : list MonteCarloProjection.t :=
  runMonteCarloSimulation z thisYear yearsUntilRetirement annualInvestment
    expectedReturn volatility targetCorpus currentAge salaryGrowthRate.
Let samples : nat -> list number :=
  yearSamples z yearsUntilRetirement annualInvestment expectedReturn volatility
    salaryGrowthRate.

Lemma yearSamples_length (y : nat) : List.length (samples y) = 1000%nat.
Proof.
  unfold samples, yearSamples.
  apply (yearValues_length z yearsUntilRetirement annualInvestment expectedReturn
           volatility salaryGrowthRate y).
Qed.

Lemma runMonteCarloSimulation_nth (y : nat) (r : MonteCarloProjection.t) :
  nth_error rows y = Some r ->
  (y <= yearsUntilRetirement)%nat /\
  MonteCarloProjection.age r = (currentAge + Z.of_nat y)%Z /\
  MonteCarloProjection.target r = targetCorpus /\
  MonteCarloProjection.p10 r = idx (NumberSort.sort (samples y)) 100 /\
  MonteCarloProjection.p25 r = idx (NumberSort.sort (samples y)) 250 /\
  MonteCarloProjection.p50 r = idx (NumberSort.sort (samples y)) 500 /\
  MonteCarloProjection.p75 r = idx (NumberSort.sort (samples y)) 750 /\
  MonteCarloProjection.p90 r = idx (NumberSort.sort (samples y)) 900 /\
  MonteCarloProjection.deterministic r
  = accumulation annualInvestment salaryGrowthRate (expectedReturn / 100) y.
Proof.
  unfold rows. rewrite runMonteCarloSimulation_rows. intros Hr.
  assert (Hy : (y < S yearsUntilRetirement)%nat).
  { destruct (Nat.lt_ge_cases y (S yearsUntilRetirement))
      as [Hlt | Hge]; [exact Hlt | exfalso].
    rewrite (proj2 (nth_error_None _ _)) in Hr; [discriminate Hr |].
    now rewrite length_map, length_seq. }
  rewrite nth_error_map_seq in Hr by exact Hy.
  inversion Hr; subst r. unfold monteCarloRow.
  cbn [MonteCarloProjection.age MonteCarloProjection.target MonteCarloProjection.p10
       MonteCarloProjection.p25 MonteCarloProjection.p50 MonteCarloProjection.p75
       MonteCarloProjection.p90 MonteCarloProjection.deterministic].
  rewrite deterministicValue_formula.
  split; [lia |]. split; [reflexivity |]. split; [reflexivity |].
  split; [reflexivity |]. split; [reflexivity |]. split; [reflexivity |].
  split; [reflexivity |]. split; reflexivity.
Qed.

(** X17.  Every recorded percentile of a year is the value that one of the
    1000 simulated paths has in that year: nothing is interpolated. *)
Theorem percentiles_are_samples (y : nat) (r : MonteCarloProjection.t) :
  nth_error rows y = Some r ->
  In (MonteCarloProjection.p10 r) (samples y) /\
  In (MonteCarloProjection.p25 r) (samples y) /\
  In (MonteCarloProjection.p50 r) (samples y) /\
  In (MonteCarloProjection.p75 r) (samples y) /\
  In (MonteCarloProjection.p90 r) (samples y).
Proof.
  intros Hr. apply runMonteCarloSimulation_nth in Hr.
  destruct Hr as (_ & _ & _ & -> & -> & -> & -> & -> & _).
  pose proof (yearSamples_length y) as Hlen.
  assert (Hin : forall k, (k < 1000)%nat ->
                         In (idx (NumberSort.sort (samples y)) k) (samples y)).
  { intros k Hk. apply sort_idx_In. rewrite Hlen. exact Hk. }
  split; [apply Hin; lia |]. split; [apply Hin; lia |].
  split; [apply Hin; lia |]. split; apply Hin; lia.
Qed.


(** *** Without volatility *)






End MonteCarloSamples.

Lemma percentiles_are_samples_witness :
  let r := monteCarloRow noNoise 2026 16 5000 12 15 1000000 24 0.02 16 in
  let samples := yearSamples noNoise 16 5000 12 15 0.02 16 in
  In (MonteCarloProjection.p10 r) samples /\
  In (MonteCarloProjection.p25 r) samples /\
  In (MonteCarloProjection.p50 r) samples /\
  In (MonteCarloProjection.p75 r) samples /\
  In (MonteCarloProjection.p90 r) samples.
Proof.
  intros r samples.
  assert (Hr : nth_error
                 (runMonteCarloSimulation noNoise 2026 16 5000 12 15 1000000 24 0.02)
                 16 = Some r) by reflexivity.
  exact (percentiles_are_samples noNoise 2026 16 5000 12 15 1000000 24 0.02 16 r Hr).
Defined.



(** ** The full-cycle simulation: final value and survival *)


Section SurvivalConsistency.
Variable yearsUntilRetirement : nat.
Variable annualInvestment : number.
Variable retirementDuration : nat.
Variables annualRetirementIncome inflationRate salaryGrowthRate : number.
Variables preReturns postReturns : list number.

Let value : nat -> number :=
  drawdownValue yearsUntilRetirement annualInvestment retirementDuration
    annualRetirementIncome inflationRate salaryGrowthRate preReturns postReturns.
Let cycle : FullCycle.t :=
  simulateFullCycle yearsUntilRetirement annualInvestment retirementDuration
    annualRetirementIncome inflationRate salaryGrowthRate preReturns postReturns.

Hypothesis income_nonnegative : 0 <= annualRetirementIncome.
Hypothesis inflation_above_minus_one : 0 <= 1 + inflationRate.
Hypothesis returns_above_minus_one :
  forall y, (y < retirementDuration)%nat -> 0 < 1 + idx postReturns y.




End SurvivalConsistency.



(** ** The plan: contributions, corpus and the warning flag *)



Section PlanFacts.
Variable thisYear : Z.
Variables age retAge : Z.
Variable income : number.
Variable vehicle : InvestmentVehicle.t.
Variables replacementRatio withdrawalRate annualSalaryGrowth : number.

Let invest : number :=
  annualInvestment age retAge income vehicle replacementRatio withdrawalRate
    annualSalaryGrowth.



End PlanFacts.



Lemma unrealistic_threshold (a income : Q) :
  0 < income -> (Qltb 75 (a / income * 100) = true <-> 0.75 * income < a).
Proof.
  intros Hincome.
  assert (Ha : a == a / income * income) by (field; lra).
  set (q := a / income) in *. clearbody q.
  split; intros H.
  - apply (proj1 (Qltb_lt _ _)) in H. rewrite Ha. nra.
  - apply (proj2 (Qltb_lt _ _)). rewrite Ha in H. nra.
Qed.

(** X22.  For a positive income the plan is flagged as unrealistic exactly
    when the annual contribution exceeds three quarters of the income. *)
Theorem isUnrealistic_iff age retAge income vehicle ratio rate growth :
  0 < income ->
  (isUnrealistic age retAge income vehicle ratio rate growth = true
   <-> 0.75 * income < annualInvestment age retAge income vehicle ratio rate growth).
Proof.
  intros Hincome. unfold isUnrealistic, incomePercentageNeeded.
  now apply unrealistic_threshold.
Qed.

Lemma isUnrealistic_iff_witness :
  isUnrealistic 39 40 52000 veryLowRisk 0.75 0.04 0.02 = true
  <-> 0.75 * 52000 < annualInvestment 39 40 52000 veryLowRisk 0.75 0.04 0.02.
Proof.
  assert (Hincome : 0 < 52000) by reflexivity.
  exact (isUnrealistic_iff 39 40 52000 veryLowRisk 0.75 0.04 0.02 Hincome).
Defined.

Lemma pvFactor_positive (vehicle : InvestmentVehicle.t) : 0 < pvFactor vehicle.
Proof.
  unfold pvFactor.
  set (r := realReturnInRetirement vehicle). clearbody r.
  destruct (Qltb 0 r) eqn:E; [apply Qltb_lt in E | reflexivity].
  assert (Hpow : Math.pow (1 + r) (- Z.of_nat retirementDuration) < 1).
  { unfold Math.pow. rewrite Qpower_opp.
    assert (H1 : 1 < (1 + r) ^ Z.of_nat retirementDuration).
    { apply Qpower_1_lt; [lra | reflexivity]. }
    assert (H0 : 0 < (1 + r) ^ Z.of_nat retirementDuration) by lra.
    assert (H01 : 0 < 1) by reflexivity.
    exact (proj1 (Qinv_lt_contravar 1 _ H01 H0) H1). }
  apply Qlt_shift_div_l; [exact E | lra].
Qed.

(** X23.  A positive income, a positive replacement ratio and a salary
    growth above -100% give a positive income to replace and a positive
    target corpus, whatever the withdrawal rate. *)
Theorem finalTargetCorpus_positive age retAge income vehicle ratio rate growth :
  0 < income -> 0 < ratio -> 0 < 1 + growth ->
  0 < futureRetirementIncome age retAge income ratio growth /\
  0 < finalTargetCorpus age retAge income vehicle ratio rate growth.
Proof.
  intros Hincome Hratio Hgrowth.
  assert (Hfri : 0 < futureRetirementIncome age retAge income ratio growth).
  { unfold futureRetirementIncome, annualRetirementIncome, futureIncome, Math.pow.
    assert (H1 : 0 < (1 + growth) ^ yearsUntilRetirement age retAge)
      by now apply Qpower_0_lt.
    assert (H2 : 0 < (1 + inflationRate) ^ yearsUntilRetirement age retAge)
      by (apply Qpower_0_lt; reflexivity).
    repeat apply Qmult_lt_0_compat; assumption. }
  split; [exact Hfri |].
  unfold finalTargetCorpus, Math.max.
  eapply Qlt_le_trans; [| apply Q.le_max_r].
  unfold targetCorpusAnnuity.
  apply Qmult_lt_0_compat; [exact Hfri | apply pvFactor_positive].
Qed.

Lemma finalTargetCorpus_positive_witness :
  0 < futureRetirementIncome 24 40 52000 0.75 0.02 /\
  0 < finalTargetCorpus 24 40 52000 moderateRisk 0.75 0.04 0.02.
Proof.
  apply (finalTargetCorpus_positive 24 40 52000 moderateRisk 0.75 0.04 0.02);
    reflexivity.
Defined.

(** ** The age milestones *)

Section Milestones.
Variable z : nat -> number.
Variable thisYear : Z.
Variables age retAge : Z.
Variable income : number.
Variable vehicle : InvestmentVehicle.t.
Variables replacementRatio withdrawalRate annualSalaryGrowth : number.
Variable postRetVehicle : InvestmentVehicle.t.
Variable lastRow : YearlyProjection.t.

Hypothesis ages_valid : (age < retAge)%Z.




End Milestones.


